(** * vendroo_server: the form and to-do HTTP API of [src/index.js]

    A shallow embedding of the Express handlers of [src/index.js] (the
    variant with the to-do resource, lines 1-242) together with the SQL
    statements they send, and the properties of the request-handling
    contract proved about them.

    The handlers are state-passing functions over a [server]: the two
    tables with their id sequences, and the uploads directory.  The
    clock and the random source are inputs of the request. *)

From Stdlib Require Import ZArith String Ascii List Lia DecimalString.
From stdpp Require Import base option list gmap strings sorting.

Local Open Scope string_scope.
Local Open Scope list_scope.
Local Open Scope Z_scope.

(** ** JavaScript values *)

Module Js.

(** The values a field of [req.body], [req.query] or [process.env] takes
    in this development: a field that is absent reads as [undefined];
    JSON gives [null], booleans and strings; multipart fields and
    environment variables are strings.  Numbers, arrays and objects are
    outside the modelled domain. *)
Inductive value : Type :=
| Undefined
| Null
| Bool (b : bool)
| Str (s : string).

(** ToBoolean. *)
Definition truthy (v : value) : bool :=
  match v with
  | Undefined | Null => false
  | Bool b => b
  | Str s => negb (String.eqb s "")
  end.

(** [a || b] *)
Definition or (a b : value) : value := if truthy a then a else b.

(** ToString, as used by template literals. *)
Definition to_string (v : value) : string :=
  match v with
  | Undefined => "undefined"
  | Null => "null"
  | Bool true => "true"
  | Bool false => "false"
  | Str s => s
  end.

(** [a === b] *)
Definition strict_eq (a b : value) : bool :=
  match a, b with
  | Undefined, Undefined | Null, Null => true
  | Bool x, Bool y => Bool.eqb x y
  | Str x, Str y => String.eqb x y
  | _, _ => false
  end.

(** [process.env.NAME]: [undefined] when the variable is unset. *)
Definition of_env (v : option string) : value :=
  match v with
  | Some s => Str s
  | None => Undefined
  end.

(** Number-to-string of an integer: its decimal digits. *)
Definition of_int (n : Z) : string := NilZero.string_of_int (Z.to_int n).

End Js.

(** ** [path.extname] (Node, POSIX flavour) *)

Module Path.

Record scan : Type := Scan {
  startDot : Z;
  startPart : Z;
  end_ : Z;
  matchedSlash : bool;
  preDotState : Z;
}.

Definition scan0 : scan :=
  {| startDot := -1; startPart := 0; end_ := -1;
     matchedSlash := true; preDotState := 0 |}.

(** One iteration of the loop at index [i] on character [code]; the
    boolean is [true] when the loop breaks. *)
Definition step (i : Z) (code : ascii) (s : scan) : scan * bool :=
  if Ascii.eqb code "/" then
    if negb (matchedSlash s)
    then ({| startDot := startDot s; startPart := i + 1; end_ := end_ s;
             matchedSlash := matchedSlash s; preDotState := preDotState s |},
          true)
    else (s, false)
  else
    let s1 :=
      if end_ s =? -1
      then {| startDot := startDot s; startPart := startPart s;
              end_ := i + 1; matchedSlash := false;
              preDotState := preDotState s |}
      else s in
    if Ascii.eqb code "."
    then
      if startDot s1 =? -1
      then ({| startDot := i; startPart := startPart s1; end_ := end_ s1;
               matchedSlash := matchedSlash s1;
               preDotState := preDotState s1 |}, false)
      else if negb (preDotState s1 =? 1)
      then ({| startDot := startDot s1; startPart := startPart s1;
               end_ := end_ s1; matchedSlash := matchedSlash s1;
               preDotState := 1 |}, false)
      else (s1, false)
    else if negb (startDot s1 =? -1)
    then ({| startDot := startDot s1; startPart := startPart s1;
             end_ := end_ s1; matchedSlash := matchedSlash s1;
             preDotState := -1 |}, false)
    else (s1, false).

(** [for (let i = path.length - 1; i >= 0; --i)]: [rpath] holds the
    characters at indices [i, i-1, ..., 0]. *)
Fixpoint loop (rpath : list ascii) (i : Z) (s : scan) : scan :=
  match rpath with
  | [] => s
  | code :: rest =>
      let '(s', brk) := step i code s in
      if brk then s' else loop rest (i - 1) s'
  end.

(** [path.slice(from, to)] for [0 <= from <= to]. *)
Definition slice (path : string) (from to : Z) : string :=
  substring (Z.to_nat from) (Z.to_nat (to - from)) path.

Definition extname (path : string) : string :=
  let s := loop (rev (list_ascii_of_string path))
                (Z.of_nat (String.length path) - 1) scan0 in
  if (startDot s =? -1)
     || (end_ s =? -1)
     || (preDotState s =? 0)
     || ((preDotState s =? 1)
         && (startDot s =? end_ s - 1)
         && (startDot s =? startPart s + 1))
  then ""
  else slice path (startDot s) (end_ s).

End Path.

(** ** The upload handler (multer disk storage) *)

(** An incoming file of the multipart field ["photo"]. *)
Record upload : Type := Upload {
  originalname : string;
  content : list Byte.byte;
}.

(** [filename]: [now_ms] is [Date.now()], [rnd] is
    [Math.round(Math.random() * 1e9)]. *)
Definition filename (now_ms rnd : Z) (file : upload) : string :=
  let uniqueSuffix := Js.of_int now_ms +:+ "-" +:+ Js.of_int rnd in
  uniqueSuffix +:+ Path.extname (originalname file).


(** ** The relational store (PostgreSQL through node-postgres) *)

Module Pg.

(** The text input functions of the column types named by the schema,
    [None] when the text is rejected (invalid input syntax, value out of
    range).  They belong to the database server; the handlers are
    verified against any functions that read the two texts
    node-postgres sends for JavaScript booleans. *)
Class Input : Type := {
  int4_in : string → option Z;
  bool_in : string → option bool;
  timestamp_in : string → option Z;
  bool_in_true : bool_in "true" = Some true;
  bool_in_false : bool_in "false" = Some false;
}.

(** node-postgres [prepareValue]: the text sent for a query parameter,
    [None] for SQL NULL. *)
Definition prepareValue (v : Js.value) : option string :=
  match v with
  | Js.Undefined | Js.Null => None
  | Js.Bool b => Some (Js.to_string (Js.Bool b))
  | Js.Str s => Some s
  end.

(** A parameter read at its inferred type: NULL stays NULL, a text goes
    through the input function.  The outer [None] is the error. *)
Definition bind {A} (input : string → option A) (p : option string)
  : option (option A) :=
  match p with
  | None => Some None
  | Some s => Some <$> input s
  end.

(** Assignment to a [VARCHAR(n)] column: a longer value is an error
    unless the excess characters are all spaces, which are cut.  A
    character is an [ascii] here. *)
Definition varchar (n : nat) (s : string) : option string :=
  if (String.length s <=? n)%nat then Some s
  else if forallb (Ascii.eqb " ") (drop n (list_ascii_of_string s))
       then Some (substring 0 n s)
       else None.

(** Assignment to a [NOT NULL] column: NULL is the error. *)
Definition not_null {A} (v : option A) : option A :=
  match v with
  | Some a => Some a
  | None => None
  end.

(** [COALESCE(a, b)] *)
Definition coalesce {A} (a b : option A) : option A :=
  match a with
  | Some _ => a
  | None => b
  end.

(** *** LIKE patterns *)

Inductive like_tok : Type :=
| LAny                (* % *)
| LOne                (* _ *)
| LChar (c : ascii).  (* the character itself, possibly escaped *)

(** A pattern that ends with the escape character is an error. *)
Fixpoint like_parse (p : list ascii) : option (list like_tok) :=
  match p with
  | [] => Some []
  | c :: p1 =>
      if Ascii.eqb c "\" then
        match p1 with
        | [] => None
        | d :: p2 => cons (LChar d) <$> like_parse p2
        end
      else if Ascii.eqb c "%" then cons LAny <$> like_parse p1
      else if Ascii.eqb c "_" then cons LOne <$> like_parse p1
      else cons (LChar c) <$> like_parse p1
  end.

Fixpoint like_match (p : list like_tok) (t : list ascii) : bool :=
  match p with
  | [] => match t with [] => true | _ :: _ => false end
  | LAny :: p' =>
      (fix any (t : list ascii) : bool :=
         like_match p' t
         || match t with [] => false | _ :: t' => any t' end) t
  | LOne :: p' =>
      match t with [] => false | _ :: t' => like_match p' t' end
  | LChar c :: p' =>
      match t with
      | [] => false
      | d :: t' => Ascii.eqb c d && like_match p' t'
      end
  end.

(** Case folding of ILIKE, on the ASCII letters. *)
Definition lower_char (c : ascii) : ascii :=
  let n := nat_of_ascii c in
  if ((65 <=? n) && (n <=? 90))%nat then ascii_of_nat (n + 32) else c.

Definition lower (s : list ascii) : list ascii := map lower_char s.

(** [text ILIKE pattern]; [None] is the error of a malformed pattern. *)
Definition ilike (text pattern : string) : option bool :=
  p ← like_parse (lower (list_ascii_of_string pattern));
  Some (like_match p (lower (list_ascii_of_string text))).

End Pg.

(** ** The schema ([createTable]) *)

Module FormEntry.
(** [form_entries]: [building] and [photo_url] are nullable;
    [created_at] always takes its default. *)
Record t : Type := Row {
  id : Z;
  owner : string;
  shopname : string;
  businesstype : string;
  phone : string;
  location : string;
  building : option string;
  photo_url : option string;
  created_at : Z;
}.
End FormEntry.

Module Todo.
(** [todos]: [description], [completed] and [due_date] are nullable;
    [created_at] always takes its default. *)
Record t : Type := Row {
  id : Z;
  title : string;
  description : option string;
  completed : option bool;
  due_date : option Z;
  created_at : Z;
}.
End Todo.

#[global] Instance form_entry_eq_dec : EqDecision FormEntry.t.
Proof. solve_decision. Defined.

#[global] Instance todo_eq_dec : EqDecision Todo.t.
Proof. solve_decision. Defined.

(** The two tables, each with the sequence behind its SERIAL [id]: the
    value the next [nextval] returns. *)
Record db : Type := Db {
  form_entries : list FormEntry.t;
  form_entries_id_seq : Z;
  todos : list Todo.t;
  todos_id_seq : Z;
}.

(** The process state: the store and the files of [uploadDir]. *)
Record server : Type := Server {
  store : db;
  uploads : gmap string (list Byte.byte);
}.

Definition set_form_entries (rows : list FormEntry.t) (seq : Z) (d : db) : db :=
  {| form_entries := rows; form_entries_id_seq := seq;
     todos := todos d; todos_id_seq := todos_id_seq d |}.

Definition set_todos (rows : list Todo.t) (seq : Z) (d : db) : db :=
  {| form_entries := form_entries d;
     form_entries_id_seq := form_entries_id_seq d;
     todos := rows; todos_id_seq := seq |}.

Definition set_store (d : db) (srv : server) : server :=
  {| store := d; uploads := uploads srv |}.

(** [ORDER BY id DESC] *)
Definition id_desc {A} (key : A → Z) : relation A := λ a b, key b ≤ key a.

#[global] Instance id_desc_dec {A} (key : A → Z) (a b : A) :
  Decision (id_desc key a b).
Proof. unfold id_desc. apply _. Defined.

Definition order_by_id_desc {A} (key : A → Z) (rows : list A) : list A :=
  merge_sort (id_desc key) rows.

(** ** The SQL statements of the handlers

    A statement takes the texts of its parameters ([None] for NULL) and
    the store; it returns [None] when the server raises an error, the
    rows of the result otherwise, and the store after it. *)

Section Statements.
Context {pg : Pg.Input}.

(** [INSERT INTO form_entries (owner, shopname, businesstype, phone,
    location, building, photo_url) VALUES ($1, ..., $7) RETURNING *].
    [nextval] is taken before the row is checked, so a rejected row
    still advances the sequence. *)
Definition insert_form_entry (now : Z)
    (p1 p2 p3 p4 p5 p6 p7 : option string) (d : db)
  : option FormEntry.t * db :=
  let id := form_entries_id_seq d in
  let row :=
    owner ← Pg.not_null p1 ≫= Pg.varchar 100;
    shopname ← Pg.not_null p2 ≫= Pg.varchar 100;
    businesstype ← Pg.not_null p3 ≫= Pg.varchar 100;
    phone ← Pg.not_null p4 ≫= Pg.varchar 20;
    location ← Pg.not_null p5 ≫= Pg.varchar 100;
    building ← Pg.bind (Pg.varchar 100) p6;
    if forallb (λ r, negb (FormEntry.id r =? id)) (form_entries d)
    then Some (FormEntry.Row id owner shopname businesstype phone
                             location building p7 now)
    else None in
  match row with
  | Some r => (Some r, set_form_entries (form_entries d ++ [r]) (id + 1) d)
  | None => (None, set_form_entries (form_entries d) (id + 1) d)
  end.

(** [SELECT * FROM form_entries ORDER BY id DESC] *)
Definition select_form_entries (d : db) : option (list FormEntry.t) :=
  Some (order_by_id_desc FormEntry.id (form_entries d)).

(** [INSERT INTO todos (title, description, due_date)
    VALUES ($1, $2, $3) RETURNING *]: [$3] is read as a timestamp
    when the parameters are bound, before the statement runs;
    [completed] takes its default. *)
Definition insert_todo (now : Z) (p1 p2 p3 : option string) (d : db)
  : option Todo.t * db :=
  match Pg.bind Pg.timestamp_in p3 with
  | None => (None, d)
  | Some due_date =>
      let id := todos_id_seq d in
      let row :=
        title ← Pg.not_null p1 ≫= Pg.varchar 255;
        if forallb (λ r, negb (Todo.id r =? id)) (todos d)
        then Some (Todo.Row id title p2 (Some false) due_date now)
        else None in
      match row with
      | Some r => (Some r, set_todos (todos d ++ [r]) (id + 1) d)
      | None => (None, set_todos (todos d) (id + 1) d)
      end
  end.

(** The conditions the list handler pushes: [title ILIKE $k] and
    [completed = true], [completed = false]. *)
Inductive condition : Type :=
| TitleILike (k : nat)
| CompletedIs (b : bool).

(** A condition on a row: [Some None] is SQL's unknown. *)
Definition eval_condition (params : list string) (c : condition)
    (r : Todo.t) : option (option bool) :=
  match c with
  | TitleILike k =>
      pattern ← params !! (k - 1)%nat;
      Some <$> Pg.ilike (Todo.title r) pattern
  | CompletedIs b => Some (Bool.eqb b <$> Todo.completed r)
  end.

(** The conjunction of the conditions holds: no condition is false or
    unknown. *)
Fixpoint eval_where (params : list string) (cs : list condition)
    (r : Todo.t) : option bool :=
  match cs with
  | [] => Some true
  | c :: cs' =>
      v ← eval_condition params c r;
      rest ← eval_where params cs' r;
      Some (default false v && rest)
  end.

Fixpoint filter_where (params : list string) (cs : list condition)
    (rows : list Todo.t) : option (list Todo.t) :=
  match rows with
  | [] => Some []
  | r :: rows' =>
      keep ← eval_where params cs r;
      rest ← filter_where params cs rows';
      Some (if (keep : bool) then r :: rest else rest)
  end.

(** [SELECT * FROM todos WHERE c1 AND ... ORDER BY id DESC], without
    the WHERE clause when there is no condition. *)
Definition select_todos (cs : list condition) (params : list string)
    (d : db) : option (list Todo.t) :=
  order_by_id_desc Todo.id <$> filter_where params cs (todos d).

(** [WHERE id = $k] *)
Definition id_is (n : option Z) (r : Todo.t) : bool :=
  match n with
  | Some n => Todo.id r =? n
  | None => false
  end.

(** The SET clause of the update on one row; the new title is checked
    against [VARCHAR(255)]. *)
Definition set_todo (p1 p2 : option string) (c : option bool)
    (dd : option Z) (r : Todo.t) : option Todo.t :=
  title ← Pg.not_null (Pg.coalesce p1 (Some (Todo.title r)))
          ≫= Pg.varchar 255;
  Some (Todo.Row (Todo.id r) title
          (Pg.coalesce p2 (Todo.description r))
          (Pg.coalesce c (Todo.completed r))
          (Pg.coalesce dd (Todo.due_date r))
          (Todo.created_at r)).

(** The table after the update and the rows RETURNING gives. *)
Fixpoint update_rows (hit : Todo.t → bool) (set : Todo.t → option Todo.t)
    (rows : list Todo.t) : option (list Todo.t * list Todo.t) :=
  match rows with
  | [] => Some ([], [])
  | r :: rows' =>
      if hit r then
        r' ← set r;
        '(tbl, ret) ← update_rows hit set rows';
        Some (r' :: tbl, r' :: ret)
      else
        '(tbl, ret) ← update_rows hit set rows';
        Some (r :: tbl, ret)
  end.

(** [UPDATE todos SET title = COALESCE($1, title),
    description = COALESCE($2, description),
    completed = COALESCE($3, completed),
    due_date = COALESCE($4, due_date) WHERE id = $5 RETURNING *]:
    [$3], [$4] and [$5] are read as boolean, timestamp and integer when
    the parameters are bound. *)
Definition update_todo (p1 p2 p3 p4 p5 : option string) (d : db)
  : option (list Todo.t) * db :=
  match
    c ← Pg.bind Pg.bool_in p3;
    dd ← Pg.bind Pg.timestamp_in p4;
    n ← Pg.bind Pg.int4_in p5;
    update_rows (id_is n) (set_todo p1 p2 c dd) (todos d)
  with
  | Some (tbl, ret) => (Some ret, set_todos tbl (todos_id_seq d) d)
  | None => (None, d)
  end.

(** [DELETE FROM todos WHERE id = $1 RETURNING *] *)
Definition delete_todo (p1 : option string) (d : db)
  : option (list Todo.t) * db :=
  match Pg.bind Pg.int4_in p1 with
  | Some n =>
      (Some (filter (λ r, id_is n r = true) (todos d)),
       set_todos (filter (λ r, id_is n r ≠ true) (todos d))
                 (todos_id_seq d) d)
  | None => (None, d)
  end.

End Statements.

(** ** Requests and responses *)

(** [process.env]: a variable is a string, or unset. *)
Record env : Type := Env {
  BASE_URL : option string;
  PORT : option string;
}.

Module FormBody.
(** [req.body] of POST /api/form, read from a multipart or JSON body. *)
Record t : Type := Body {
  owner : Js.value;
  shopname : Js.value;
  businesstype : Js.value;
  phone : Js.value;
  location : Js.value;
  building : Js.value;
}.
End FormBody.

Module TodoBody.
(** [req.body] of POST /api/todos and PUT /api/todos/:id, read from a
    JSON body; the create handler does not read [completed]. *)
Record t : Type := Body {
  title : Js.value;
  description : Js.value;
  completed : Js.value;
  due_date : Js.value;
}.
End TodoBody.

Module TodoQuery.
(** [req.query] of GET /api/todos. *)
Record t : Type := Query {
  search : Js.value;
  status : Js.value;
}.
End TodoQuery.

Module Http.

(** The JSON bodies the handlers send. *)
Inductive json (A : Type) : Type :=
| Error (error : string)                     (* { error } *)
| Success (data : A)                         (* { success: true, data } *)
| SuccessMessage (message : string) (data : A)
                                     (* { success: true, message, data } *)
| Rows (rows : list A).                      (* [row, ...] *)
Arguments Error {A} error.
Arguments Success {A} data.
Arguments SuccessMessage {A} message data.
Arguments Rows {A} rows.

Record response (A : Type) : Type := Response {
  status : Z;
  body : json A;
}.
Arguments Response {A} status body.
Arguments status {A} r.
Arguments body {A} r.

(** [res.json(b)] *)
Definition json_ok {A} (b : json A) : response A := Response 200 b.

(** [res.status(code).json({ error })] *)
Definition json_error {A} (code : Z) (error : string) : response A :=
  Response code (Error error).

(** The row a success body carries. *)
Definition data {A} (r : response A) : option A :=
  match body r with
  | Success row | SuccessMessage _ row => Some row
  | Error _ | Rows _ => None
  end.

(** What the static route answers. *)
Inductive static : Type :=
| File (bytes : list Byte.byte)
| NotFound.

End Http.

(** ** The handlers *)

(** [upload.single("photo")]: the file, when there is one, is written to
    [uploadDir] under its generated name, which becomes
    [req.file.filename]. *)
Definition upload_single (now_ms rnd : Z) (file : option upload)
    (srv : server) : option string * server :=
  match file with
  | Some f =>
      let name := filename now_ms rnd f in
      (Some name,
       {| store := store srv; uploads := <[name := content f]> (uploads srv) |})
  | None => (None, srv)
  end.

(** [express.static(uploadDir)] under [/uploads], for a file directly in
    the directory; a name that starts with a dot is not served. *)
Definition get_uploads (name : string) (srv : server) : Http.static :=
  if String.prefix "." name then Http.NotFound
  else match uploads srv !! name with
       | Some bytes => Http.File bytes
       | None => Http.NotFound
       end.

Section Handlers.
Context {pg : Pg.Input}.

(** The number [5000] is interpolated as its digits. *)
Definition baseUrl (e : env) : Js.value :=
  Js.or (Js.of_env (BASE_URL e))
    (Js.or (Js.Str "https://vendroo-server.onrender.com")
       (Js.Str ("http://localhost:"
                +:+ Js.to_string (Js.or (Js.of_env (PORT e))
                                    (Js.Str "5000"))))).

(** POST /api/form, behind [upload.single("photo")]. [now] is the
    store's clock. *)
Definition post_form (e : env) (now_ms rnd now : Z)
    (file : option upload) (b : FormBody.t) (srv : server)
  : Http.response FormEntry.t * server :=
  let '(req_file, srv) := upload_single now_ms rnd file srv in
  if negb (Js.truthy (FormBody.owner b))
     || negb (Js.truthy (FormBody.shopname b))
     || negb (Js.truthy (FormBody.businesstype b))
     || negb (Js.truthy (FormBody.phone b))
     || negb (Js.truthy (FormBody.location b))
  then
    (Http.json_error 400
       "Owner, shopname, businesstype, phone, and location are required",
     srv)
  else
    let photo_url :=
      match req_file with
      | Some name =>
          Js.Str (Js.to_string (baseUrl e) +:+ "/uploads/" +:+ name)
      | None => Js.Null
      end in
    match
      insert_form_entry now
        (Pg.prepareValue (FormBody.owner b))
        (Pg.prepareValue (FormBody.shopname b))
        (Pg.prepareValue (FormBody.businesstype b))
        (Pg.prepareValue (FormBody.phone b))
        (Pg.prepareValue (FormBody.location b))
        (Pg.prepareValue (Js.or (FormBody.building b) (Js.Str "")))
        (Pg.prepareValue photo_url)
        (store srv)
    with
    | (Some row, d) => (Http.json_ok (Http.Success row), set_store d srv)
    | (None, d) =>
        (Http.json_error 500 "Database insert failed", set_store d srv)
    end.

(** GET /api/form *)
Definition get_form (srv : server) : Http.response FormEntry.t :=
  match select_form_entries (store srv) with
  | Some rows => Http.json_ok (Http.Rows rows)
  | None => Http.json_error 500 "Database fetch failed"
  end.

(** POST /api/todos *)
Definition post_todos (now : Z) (b : TodoBody.t) (srv : server)
  : Http.response Todo.t * server :=
  if negb (Js.truthy (TodoBody.title b))
  then (Http.json_error 400 "Title is required", srv)
  else
    match
      insert_todo now
        (Pg.prepareValue (TodoBody.title b))
        (Pg.prepareValue (Js.or (TodoBody.description b) (Js.Str "")))
        (Pg.prepareValue (Js.or (TodoBody.due_date b) Js.Null))
        (store srv)
    with
    | (Some row, d) => (Http.json_ok (Http.Success row), set_store d srv)
    | (None, d) =>
        (Http.json_error 500 "Database insert failed", set_store d srv)
    end.

(** The parameters and conditions GET /api/todos collects. *)
Definition todos_query (q : TodoQuery.t) : list string * list condition :=
  let params : list string := [] in
  let conditions : list condition := [] in
  let '(params, conditions) :=
    if Js.truthy (TodoQuery.search q)
    then
      let params :=
        (params ++ ["%" +:+ Js.to_string (TodoQuery.search q) +:+ "%"])
      in
      (params, (conditions ++ [TitleILike (length params)]))
    else (params, conditions) in
  let conditions :=
    if Js.strict_eq (TodoQuery.status q) (Js.Str "completed")
    then (conditions ++ [CompletedIs true])
    else if Js.strict_eq (TodoQuery.status q) (Js.Str "pending")
    then (conditions ++ [CompletedIs false])
    else conditions in
  (params, conditions).

(** GET /api/todos *)
Definition get_todos (q : TodoQuery.t) (srv : server)
  : Http.response Todo.t :=
  let '(params, conditions) := todos_query q in
  match select_todos conditions params (store srv) with
  | Some rows => Http.json_ok (Http.Rows rows)
  | None => Http.json_error 500 "Database fetch failed"
  end.

(** PUT /api/todos/:id *)
Definition put_todos (id : string) (b : TodoBody.t) (srv : server)
  : Http.response Todo.t * server :=
  match
    update_todo
      (Pg.prepareValue (Js.or (TodoBody.title b) Js.Null))
      (Pg.prepareValue (Js.or (TodoBody.description b) Js.Null))
      (Pg.prepareValue (TodoBody.completed b))
      (Pg.prepareValue (Js.or (TodoBody.due_date b) Js.Null))
      (Pg.prepareValue (Js.Str id))
      (store srv)
  with
  | (Some [], d) => (Http.json_error 404 "To-Do not found", set_store d srv)
  | (Some (row :: _), d) =>
      (Http.json_ok (Http.Success row), set_store d srv)
  | (None, d) =>
      (Http.json_error 500 "Database update failed", set_store d srv)
  end.

(** DELETE /api/todos/:id *)
Definition delete_todos (id : string) (srv : server)
  : Http.response Todo.t * server :=
  match delete_todo (Pg.prepareValue (Js.Str id)) (store srv) with
  | (Some [], d) => (Http.json_error 404 "To-Do not found", set_store d srv)
  | (Some (row :: _), d) =>
      (Http.json_ok (Http.SuccessMessage "To-Do deleted" row),
       set_store d srv)
  | (None, d) =>
      (Http.json_error 500 "Database delete failed", set_store d srv)
  end.

End Handlers.

(** ** The earlier variant of the form handler

    The second server definition of [src/index.js] has no to-do
    resource; its POST /api/form builds the photo URL before it validates
    and knows no production address. *)

Module Legacy.

(** [process.env.BASE_URL || `http://localhost:${PORT}`], with
    [PORT = process.env.PORT || 5000]. *)
Definition baseUrl (e : env) : Js.value :=
  Js.or (Js.of_env (BASE_URL e))
    (Js.Str ("http://localhost:"
             +:+ Js.to_string (Js.or (Js.of_env (PORT e)) (Js.Str "5000")))).

Definition post_form (e : env) (now_ms rnd now : Z)
    (file : option upload) (b : FormBody.t) (srv : server)
  : Http.response FormEntry.t * server :=
  let '(req_file, srv) := upload_single now_ms rnd file srv in
  let photo_url :=
    match req_file with
    | Some name => Js.Str (Js.to_string (baseUrl e) +:+ "/uploads/" +:+ name)
    | None => Js.Null
    end in
  if negb (Js.truthy (FormBody.owner b))
     || negb (Js.truthy (FormBody.phone b))
     || negb (Js.truthy (FormBody.location b))
     || negb (Js.truthy (FormBody.shopname b))
     || negb (Js.truthy (FormBody.businesstype b))
  then
    (Http.json_error 400
       "Owner, shopname, businesstype, phone, and location are required",
     srv)
  else
    match
      insert_form_entry now
        (Pg.prepareValue (FormBody.owner b))
        (Pg.prepareValue (FormBody.shopname b))
        (Pg.prepareValue (FormBody.businesstype b))
        (Pg.prepareValue (FormBody.phone b))
        (Pg.prepareValue (FormBody.location b))
        (Pg.prepareValue (Js.or (FormBody.building b) (Js.Str "")))
        (Pg.prepareValue photo_url)
        (store srv)
    with
    | (Some row, d) => (Http.json_ok (Http.Success row), set_store d srv)
    | (None, d) =>
        (Http.json_error 500 "Database insert failed", set_store d srv)
    end.

End Legacy.

(** ** Notions used by the statements *)

(** The ids of a table lie below its sequence: what the SERIAL column
    maintains when every row is inserted through it. *)
Definition todos_sequenced (d : db) : Prop :=
  Forall (λ r, Todo.id r < todos_id_seq d) (todos d).

(** The todos table obeys its schema: ids assigned by the sequence,
    the primary key, and the length of titles. *)
Definition todos_ok (d : db) : Prop :=
  todos_sequenced d
  ∧ NoDup (Todo.id <$> todos d)
  ∧ Forall (λ r, (String.length (Todo.title r) ≤ 255)%nat) (todos d).

(** What a supplied [due_date] stands for: NULL when it is absent, null
    or empty, else the timestamp its text spells; [None] when the store
    rejects the text. *)
Definition due_date_of {pg : Pg.Input} (v : Js.value) : option (option Z) :=
  if Js.truthy v then Some <$> Pg.timestamp_in (Js.to_string v)
  else Some None.

(** What a supplied [completed] stands for: NULL when it is absent or
    null, else the boolean its text spells. *)
Definition completed_of {pg : Pg.Input} (v : Js.value) : option (option bool) :=
  match v with
  | Js.Undefined | Js.Null => Some None
  | _ => Some <$> Pg.bool_in (Js.to_string v)
  end.

(** The row PUT /api/todos/:id writes over [r], for a supplied completed
    that stands for [c] and a supplied due_date that stands for [due]. *)
Definition put_row (b : TodoBody.t) (c : option bool) (due : option Z)
    (r : Todo.t) : Todo.t :=
  {| Todo.id := Todo.id r;
     Todo.title :=
       if Js.truthy (TodoBody.title b)
       then Js.to_string (TodoBody.title b) else Todo.title r;
     Todo.description :=
       if Js.truthy (TodoBody.description b)
       then Some (Js.to_string (TodoBody.description b))
       else Todo.description r;
     Todo.completed :=
       match c with Some x => Some x | None => Todo.completed r end;
     Todo.due_date :=
       match due with Some x => Some x | None => Todo.due_date r end;
     Todo.created_at := Todo.created_at r |}.

(** The first of the candidates that is set and not empty. *)
Fixpoint first_non_empty (candidates : list (option string)) : option string :=
  match candidates with
  | [] => None
  | Some s :: rest => if String.eqb s "" then first_non_empty rest else Some s
  | None :: rest => first_non_empty rest
  end.

(** The candidates for the base URL of a photo link: the override of
    the environment, the production address, and the local address with
    the configured port, 5000 when none is. *)
Definition base_url_candidates (e : env) : list (option string) :=
  [BASE_URL e;
   Some "https://vendroo-server.onrender.com";
   Some ("http://localhost:" +:+ default "5000" (first_non_empty [PORT e]))].

(** [s] ends with [suffix]. *)
Definition ends_with (suffix s : string) : Prop :=
  list_ascii_of_string suffix `suffix_of` list_ascii_of_string s.

(** A character that is neither the separator nor the dot. *)
Definition plain (x : ascii) : Prop := x ≠ "/"%char ∧ x ≠ "."%char.

(** The scan has found the dot at [D] and the end at [E], and has seen
    a character before the dot. *)
Definition settled (D E : Z) (s : Path.scan) : Prop :=
  Path.startDot s = D ∧ Path.end_ s = E
  ∧ (Path.preDotState s = 1 ∨ Path.preDotState s = -1).

(** A POST /api/form request with the readings of the clocks and of the
    random source it meets. *)
Record form_request : Type := FormRequest {
  at_ms : Z;
  random : Z;
  at_now : Z;
  photo : option upload;
  fields : FormBody.t;
}.

(** POST /api/form requests served one after the other: the rows of the
    successful ones, in the order of their creation, and the server
    after the last. *)
Fixpoint post_forms (e : env) (reqs : list form_request) (srv : server)
  : list FormEntry.t * server :=
  match reqs with
  | [] => ([], srv)
  | rq :: reqs' =>
      let '(res, srv1) :=
        post_form e (at_ms rq) (random rq) (at_now rq) (photo rq) (fields rq)
          srv in
      let '(created, srv2) := post_forms e reqs' srv1 in
      (match Http.data res with
       | Some row => row :: created
       | None => created
       end, srv2)
  end.

(** [hay] contains [needle], letter case aside. *)
Definition contains_ci (needle hay : string) : Prop :=
  ∃ pre post,
    Pg.lower (list_ascii_of_string hay)
    = pre ++ Pg.lower (list_ascii_of_string needle) ++ post.

(** The characters with a meaning of their own in a LIKE pattern. *)
Definition like_meta (c : ascii) : Prop :=
  c = "%"%char ∨ c = "_"%char ∨ c = "\"%char.

(** The pattern GET /api/todos sends for a search text. *)
Definition search_pattern (search : Js.value) : string :=
  "%" +:+ Js.to_string search +:+ "%".

(** The rows GET /api/todos keeps for a query: the title matches the
    pattern when a search is supplied, and [completed] is the flag that
    a recognized status names. *)
Definition listed (q : TodoQuery.t) (r : Todo.t) : bool :=
  (if Js.truthy (TodoQuery.search q)
   then bool_decide (Pg.ilike (Todo.title r)
                       (search_pattern (TodoQuery.search q)) = Some true)
   else true)
  && (if Js.strict_eq (TodoQuery.status q) (Js.Str "completed")
      then bool_decide (Todo.completed r = Some true)
      else if Js.strict_eq (TodoQuery.status q) (Js.Str "pending")
      then bool_decide (Todo.completed r = Some false)
      else true).

(** The ids of form_entries lie below its sequence. *)
Definition form_entries_ok (d : db) : Prop :=
  Forall (λ r, FormEntry.id r < form_entries_id_seq d) (form_entries d).

(** The text stored for a supplied [building]: the empty string when it
    is absent or empty. *)
Definition building_of (v : Js.value) : string :=
  if Js.truthy v then Js.to_string v else "".

(** The requests of the to-do resource that write. *)
Inductive todo_request : Type :=
| PostTodo (now : Z) (b : TodoBody.t)
| PutTodo (id : string) (b : TodoBody.t)
| DeleteTodo (id : string).

Definition serve_todo {pg : Pg.Input} (rq : todo_request) (srv : server)
  : Http.response Todo.t * server :=
  match rq with
  | PostTodo now b => post_todos now b srv
  | PutTodo id b => put_todos id b srv
  | DeleteTodo id => delete_todos id srv
  end.

(** Requests served one after the other: the rows the successful POSTs
    created, in the order of their creation, and the server after the
    last. *)
Fixpoint run_todos {pg : Pg.Input} (reqs : list todo_request) (srv : server)
  : list Todo.t * server :=
  match reqs with
  | [] => ([], srv)
  | rq :: reqs' =>
      let '(res, srv1) := serve_todo rq srv in
      let '(created, srv2) := run_todos reqs' srv1 in
      (match rq, Http.data res with
       | PostTodo _ _, Some row => row :: created
       | _, _ => created
       end, srv2)
  end.

(** The query of GET /api/todos?status=... without a search. *)
Definition by_status (status : string) : TodoQuery.t :=
  {| TodoQuery.search := Js.Undefined; TodoQuery.status := Js.Str status |}.

(** No row of todos has a NULL completed flag. *)
Definition completed_set (d : db) : Prop :=
  Forall (λ r, Todo.completed r ≠ None) (todos d).

(** A text too long for [VARCHAR(n)]: it has more than [n] characters
    and the excess is not all spaces. *)
Definition too_long (n : nat) (s : string) : Prop :=
  (n < String.length s)%nat
  ∧ ∃ c, c ∈ drop n (list_ascii_of_string s) ∧ c ≠ " "%char.

(** ** A reference instance of the input functions

    The decimal spelling of integers, the spellings of booleans, and the
    special timestamp [epoch]; surrounding white space is ignored.  The
    examples are evaluated with it. *)

Module PgText.

Definition is_space (c : ascii) : bool :=
  let n := nat_of_ascii c in
  ((n =? 32) || ((9 <=? n) && (n <=? 13)))%nat.

Fixpoint skip_spaces (l : list ascii) : list ascii :=
  match l with
  | c :: l' => if is_space c then skip_spaces l' else l
  | [] => []
  end.

Definition trim (l : list ascii) : list ascii :=
  rev (skip_spaces (rev (skip_spaces l))).

Definition digit (c : ascii) : option Z :=
  let n := nat_of_ascii c in
  if ((48 <=? n) && (n <=? 57))%nat then Some (Z.of_nat n - 48) else None.

Fixpoint read_digits (l : list ascii) (acc : Z) : option Z :=
  match l with
  | [] => Some acc
  | c :: l' => d ← digit c; read_digits l' (10 * acc + d)
  end.

Definition int4_in (s : string) : option Z :=
  let l := trim (list_ascii_of_string s) in
  let '(neg, l) :=
    match l with
    | c :: l' =>
        if Ascii.eqb c "-" then (true, l')
        else if Ascii.eqb c "+" then (false, l')
        else (false, l)
    | [] => (false, l)
    end in
  match l with
  | [] => None
  | _ :: _ =>
      n ← read_digits l 0;
      let v := if neg then - n else n in
      if (- 2147483648 <=? v) && (v <=? 2147483647) then Some v else None
  end.

Definition bool_in (s : string) : option bool :=
  let l := string_of_list_ascii (Pg.lower (trim (list_ascii_of_string s))) in
  if existsb (String.eqb l)
       ["t"; "tr"; "tru"; "true"; "y"; "ye"; "yes"; "on"; "1"]
  then Some true
  else if existsb (String.eqb l)
       ["f"; "fa"; "fal"; "fals"; "false"; "n"; "no"; "of"; "off"; "0"]
  then Some false
  else None.

(** Microseconds since the Unix epoch. *)
Definition timestamp_in (s : string) : option Z :=
  let l := string_of_list_ascii (Pg.lower (trim (list_ascii_of_string s))) in
  if String.eqb l "epoch" then Some 0 else None.

Definition input : Pg.Input :=
  {| Pg.int4_in := int4_in;
     Pg.bool_in := bool_in;
     Pg.timestamp_in := timestamp_in;
     Pg.bool_in_true := eq_refl;
     Pg.bool_in_false := eq_refl |}.

End PgText.

(** ** Sample data for the examples *)

Definition empty_server : server :=
  {| store := {| form_entries := []; form_entries_id_seq := 1;
                 todos := []; todos_id_seq := 1 |};
     uploads := ∅ |}.

Definition no_env : env := {| BASE_URL := None; PORT := None |}.

Definition shop : FormBody.t :=
  {| FormBody.owner := Js.Str "Asha"; FormBody.shopname := Js.Str "Asha Stores";
     FormBody.businesstype := Js.Str "grocery"; FormBody.phone := Js.Str "5550100";
     FormBody.location := Js.Str "Kochi"; FormBody.building := Js.Undefined |}.

Definition no_phone : FormBody.t :=
  {| FormBody.owner := Js.Str "Asha"; FormBody.shopname := Js.Str "Asha Stores";
     FormBody.businesstype := Js.Str "grocery"; FormBody.phone := Js.Str "";
     FormBody.location := Js.Str "Kochi"; FormBody.building := Js.Undefined |}.

Definition shop_photo : upload :=
  {| originalname := "shop.png"; content := [Byte.x89; Byte.x50] |}.

Definition hidden_photo : upload :=
  {| originalname := ".png"; content := [Byte.x89; Byte.x50] |}.

Definition front_photo : upload :=
  {| originalname := "front.png"; content := [Byte.x01] |}.

Definition receipt : upload :=
  {| originalname := "receipt"; content := [Byte.x02] |}.

Definition port_8080 : env := {| BASE_URL := None; PORT := Some "8080" |}.

Definition long_phone : FormBody.t :=
  {| FormBody.owner := Js.Str "Asha"; FormBody.shopname := Js.Str "Asha Stores";
     FormBody.businesstype := Js.Str "grocery";
     FormBody.phone := Js.Str "+91 98470 12345 ext 6";
     FormBody.location := Js.Str "Kochi"; FormBody.building := Js.Undefined |}.

Definition shop_row (photo_url : option string) : FormEntry.t :=
  {| FormEntry.id := 1; FormEntry.owner := "Asha";
     FormEntry.shopname := "Asha Stores"; FormEntry.businesstype := "grocery";
     FormEntry.phone := "5550100"; FormEntry.location := "Kochi";
     FormEntry.building := Some ""; FormEntry.photo_url := photo_url;
     FormEntry.created_at := 5 |}.

Definition todo_body (title : Js.value) : TodoBody.t :=
  {| TodoBody.title := title; TodoBody.description := Js.Undefined;
     TodoBody.completed := Js.Undefined; TodoBody.due_date := Js.Undefined |}.

Definition feed_the_cat : TodoBody.t :=
  {| TodoBody.title := Js.Str "feed the cat"; TodoBody.description := Js.Str "";
     TodoBody.completed := Js.Str "yes"; TodoBody.due_date := Js.Str "epoch" |}.

Definition completed_only : TodoBody.t :=
  {| TodoBody.title := Js.Undefined; TodoBody.description := Js.Undefined;
     TodoBody.completed := Js.Bool true; TodoBody.due_date := Js.Undefined |}.

Definition bad_due_date : TodoBody.t :=
  {| TodoBody.title := Js.Str "feed the cat";
     TodoBody.description := Js.Undefined;
     TodoBody.completed := Js.Str "maybe";
     TodoBody.due_date := Js.Str "not a date" |}.

Definition milk : Todo.t :=
  {| Todo.id := 1; Todo.title := "buy milk"; Todo.description := Some "";
     Todo.completed := Some false; Todo.due_date := None;
     Todo.created_at := 0 |}.

Definition one_todo : server :=
  {| store := {| form_entries := []; form_entries_id_seq := 1;
                 todos := [milk]; todos_id_seq := 2 |};
     uploads := ∅ |}.

(** A text of [n] letters. *)
Definition letters (n : nat) : string := string_of_list_ascii (repeat "a"%char n).

(** * Properties *)

Lemma string_app_assoc (a b c : string) : (a +:+ b) +:+ c = a +:+ (b +:+ c).
Proof.
  induction a as [|x a IH]; [done|].
  change (String x ((a +:+ b) +:+ c) = String x (a +:+ (b +:+ c))).
  by rewrite IH.
Qed.

#[global] Instance id_desc_total {A} (key : A → Z) : Total (id_desc key).
Proof. intros a b. unfold id_desc. lia. Qed.

#[global] Instance id_desc_trans {A} (key : A → Z) : Transitive (id_desc key).
Proof. intros a b c. unfold id_desc. lia. Qed.

Lemma set_store_same srv : set_store (store srv) srv = srv.
Proof. by destruct srv. Qed.

Lemma falsy_cases v :
  Js.truthy v = false ↔
  v = Js.Undefined ∨ v = Js.Null ∨ v = Js.Bool false ∨ v = Js.Str "".
Proof.
  split.
  - destruct v as [| |[]|s]; simpl; try (intros; congruence); eauto.
    destruct s; simpl; [eauto 6|discriminate].
  - intros [->|[->|[->| ->]]]; reflexivity.
Qed.

Lemma prepareValue_truthy v :
  Js.truthy v = true → Pg.prepareValue v = Some (Js.to_string v).
Proof. destruct v as [| |[]|s]; simpl; intros; congruence. Qed.

Lemma varchar_fits n s : (String.length s ≤ n)%nat → Pg.varchar n s = Some s.
Proof.
  intros Hn. unfold Pg.varchar.
  by destruct (Nat.leb_spec (String.length s) n); [|lia].
Qed.

Lemma upload_single_store now_ms rnd file srv :
  store (upload_single now_ms rnd file srv).2 = store srv.
Proof. by destruct file. Qed.

Section Form.

(** [C3] POST /api/form with one of owner, shopname, businesstype,
    phone, location omitted or empty (or otherwise falsy) answers 400
    with the one fixed message that lists the required fields, whichever
    of them is missing, and leaves the store as it was: no row is
    added to form_entries. *)
Theorem post_form_missing_required e now_ms rnd now file b srv :
  Js.truthy (FormBody.owner b) = false
  ∨ Js.truthy (FormBody.shopname b) = false
  ∨ Js.truthy (FormBody.businesstype b) = false
  ∨ Js.truthy (FormBody.phone b) = false
  ∨ Js.truthy (FormBody.location b) = false →
  (post_form e now_ms rnd now file b srv).1
  = Http.Response 400
      (Http.Error
         "Owner, shopname, businesstype, phone, and location are required")
  ∧ store (post_form e now_ms rnd now file b srv).2 = store srv.
Proof.
  intros Hmissing. unfold post_form.
  pose proof (upload_single_store now_ms rnd file srv) as Hstore.
  destruct (upload_single now_ms rnd file srv) as [req_file srv1].
  simpl in Hstore.
  assert (negb (Js.truthy (FormBody.owner b))
          || negb (Js.truthy (FormBody.shopname b))
          || negb (Js.truthy (FormBody.businesstype b))
          || negb (Js.truthy (FormBody.phone b))
          || negb (Js.truthy (FormBody.location b)) = true) as ->.
  { destruct Hmissing as [->|[->|[->|[->| ->]]]]; simpl;
      rewrite ?orb_true_r; reflexivity. }
  by split.
Qed.

Lemma post_form_missing_required_witness :
  (post_form no_env 1 2 3 None
     {| FormBody.owner := Js.Str "Asha"; FormBody.shopname := Js.Str "";
        FormBody.businesstype := Js.Str "grocery";
        FormBody.phone := Js.Undefined; FormBody.location := Js.Str "Kochi";
        FormBody.building := Js.Undefined |} empty_server).1
  = Http.Response 400
      (Http.Error
         "Owner, shopname, businesstype, phone, and location are required")
  ∧ store (post_form no_env 1 2 3 None
     {| FormBody.owner := Js.Str "Asha"; FormBody.shopname := Js.Str "";
        FormBody.businesstype := Js.Str "grocery";
        FormBody.phone := Js.Undefined; FormBody.location := Js.Str "Kochi";
        FormBody.building := Js.Undefined |} empty_server).2
    = store empty_server.
Proof.
  apply post_form_missing_required. right; left. reflexivity.
Defined.

Lemma insert_form_entry_inv now p1 p2 p3 p4 p5 p6 p7 d r d' :
  insert_form_entry now p1 p2 p3 p4 p5 p6 p7 d = (r, d') →
  form_entries_id_seq d' = form_entries_id_seq d + 1
  ∧ todos d' = todos d ∧ todos_id_seq d' = todos_id_seq d
  ∧ match r with
    | Some row =>
        form_entries d' = form_entries d ++ [row]
        ∧ FormEntry.id row = form_entries_id_seq d
        ∧ FormEntry.photo_url row = p7
        ∧ FormEntry.created_at row = now
        ∧ Forall (λ x, FormEntry.id x ≠ form_entries_id_seq d)
            (form_entries d)
    | None => form_entries d' = form_entries d
    end.
Proof.
  unfold insert_form_entry. intros Hins.
  destruct (_ ≫= _) as [row|] eqn:Hrow; simplify_eq/=; [|done].
  do 3 (split; [done|]). split; [done|].
  destruct (Pg.not_null p1 ≫= _) as [x1|]; simplify_eq/=.
  destruct (Pg.not_null p2 ≫= _) as [x2|]; simplify_eq/=.
  destruct (Pg.not_null p3 ≫= _) as [x3|]; simplify_eq/=.
  destruct (Pg.not_null p4 ≫= _) as [x4|]; simplify_eq/=.
  destruct (Pg.not_null p5 ≫= _) as [x5|]; simplify_eq/=.
  destruct (Pg.bind _ p6) as [x6|]; simplify_eq/=.
  destruct (forallb _ _) eqn:Hfresh; simplify_eq/=.
  do 3 (split; [done|]).
  apply Forall_forall. intros x Hx.
  rewrite forallb_forall in Hfresh.
  apply list_elem_of_In, Hfresh in Hx.
  by apply negb_true_iff, Z.eqb_neq in Hx.
Qed.

(** The code's chain of [||] picks the first candidate that is set and
    not empty. *)
Lemma baseUrl_first_non_empty e :
  first_non_empty (base_url_candidates e) = Some (Js.to_string (baseUrl e)).
Proof.
  unfold baseUrl, base_url_candidates, Js.or.
  destruct e as [[base|] [port|]]; simpl;
    try destruct (String.eqb_spec base "") as [->|];
    try destruct (String.eqb_spec port "") as [->|]; simpl; try done.
Qed.

(** What a request that passes validation does. *)
Lemma post_form_valid e now_ms rnd now file b srv :
  Js.truthy (FormBody.owner b) = true →
  Js.truthy (FormBody.shopname b) = true →
  Js.truthy (FormBody.businesstype b) = true →
  Js.truthy (FormBody.phone b) = true →
  Js.truthy (FormBody.location b) = true →
  post_form e now_ms rnd now file b srv
  = let srv1 := (upload_single now_ms rnd file srv).2 in
    let ins :=
      insert_form_entry now
        (Pg.prepareValue (FormBody.owner b))
        (Pg.prepareValue (FormBody.shopname b))
        (Pg.prepareValue (FormBody.businesstype b))
        (Pg.prepareValue (FormBody.phone b))
        (Pg.prepareValue (FormBody.location b))
        (Pg.prepareValue (Js.or (FormBody.building b) (Js.Str "")))
        ((λ f, Js.to_string (baseUrl e) +:+ "/uploads/"
               +:+ filename now_ms rnd f) <$> file)
        (store srv1) in
    (match ins.1 with
     | Some row => Http.Response 200 (Http.Success row)
     | None => Http.Response 500 (Http.Error "Database insert failed")
     end, set_store ins.2 srv1).
Proof.
  intros H1 H2 H3 H4 H5. unfold post_form.
  destruct file as [f|]; simpl; rewrite H1, H2, H3, H4, H5; simpl;
    by destruct (insert_form_entry _ _ _ _ _ _ _ _ _) as [[row|] d].
Qed.

Lemma post_form_status e now_ms rnd now file b srv :
  (Js.truthy (FormBody.owner b) && Js.truthy (FormBody.shopname b)
   && Js.truthy (FormBody.businesstype b) && Js.truthy (FormBody.phone b)
   && Js.truthy (FormBody.location b) = true
   ∧ Http.status (post_form e now_ms rnd now file b srv).1 ≠ 400)
  ∨ (Js.truthy (FormBody.owner b) && Js.truthy (FormBody.shopname b)
     && Js.truthy (FormBody.businesstype b) && Js.truthy (FormBody.phone b)
     && Js.truthy (FormBody.location b) = false
     ∧ post_form e now_ms rnd now file b srv
       = (Http.Response 400
            (Http.Error
               "Owner, shopname, businesstype, phone, and location are required"),
          (upload_single now_ms rnd file srv).2)).
Proof.
  destruct (Js.truthy (FormBody.owner b)) eqn:H1;
  destruct (Js.truthy (FormBody.shopname b)) eqn:H2;
  destruct (Js.truthy (FormBody.businesstype b)) eqn:H3;
  destruct (Js.truthy (FormBody.phone b)) eqn:H4;
  destruct (Js.truthy (FormBody.location b)) eqn:H5;
  try (right; split; [done|]; unfold post_form;
       destruct (upload_single now_ms rnd file srv) as [req_file srv1];
       by rewrite H1, H2, H3, H4, H5).
  left. split; [done|]. rewrite post_form_valid by done. simpl.
  by destruct (insert_form_entry _ _ _ _ _ _ _ _ _).1.
Qed.

Lemma post_form_success e now_ms rnd now file b srv row srv' :
  post_form e now_ms rnd now file b srv
  = (Http.Response 200 (Http.Success row), srv') →
  row ∈ form_entries (store srv')
  ∧ FormEntry.photo_url row
    = (λ f, Js.to_string (baseUrl e) +:+ "/uploads/"
            +:+ filename now_ms rnd f) <$> file.
Proof.
  intros Hpost.
  destruct (post_form_status e now_ms rnd now file b srv)
    as [[Hvalid _]|[_ Hbad]]; [|rewrite Hbad in Hpost; by simplify_eq].
  repeat (apply andb_true_iff in Hvalid as [Hvalid ?]).
  rewrite post_form_valid in Hpost by done. simpl in Hpost.
  destruct (insert_form_entry _ _ _ _ _ _ _ _ _) as [r d] eqn:Hins.
  apply insert_form_entry_inv in Hins as (_ & _ & _ & Hrow).
  simpl in Hpost. destruct r as [row'|]; [|by simplify_eq].
  destruct Hrow as (Htbl & _ & Hurl & _). simplify_eq/=.
  split; [rewrite Htbl; apply elem_of_app; right; by left|done].
Qed.

Lemma post_form_uploads e now_ms rnd now file b srv :
  uploads (post_form e now_ms rnd now file b srv).2
  = uploads (upload_single now_ms rnd file srv).2.
Proof.
  destruct (post_form_status e now_ms rnd now file b srv)
    as [[Hvalid _]|[_ Hbad]]; [|by rewrite Hbad].
  repeat (apply andb_true_iff in Hvalid as [Hvalid ?]).
  by rewrite post_form_valid.
Qed.

(** [C6] A POST /api/form that succeeds (200 with the row) has
    persisted the row, and its photo_url is, when a file is attached,
    the base URL joined with [/uploads/] and the generated file name,
    the base URL being the first non-empty of the environment override,
    the production address and the local address with the port; and is
    NULL when no file is attached. *)
Theorem post_form_photo_url e now_ms rnd now file b srv row srv' :
  post_form e now_ms rnd now file b srv
  = (Http.Response 200 (Http.Success row), srv') →
  row ∈ form_entries (store srv')
  ∧ match file with
    | Some f =>
        ∃ base,
          first_non_empty (base_url_candidates e) = Some base
          ∧ FormEntry.photo_url row
            = Some (base +:+ "/uploads/" +:+ filename now_ms rnd f)
    | None => FormEntry.photo_url row = None
    end.
Proof.
  intros Hpost. apply post_form_success in Hpost as [Hrow Hurl].
  split; [done|]. destruct file as [f|]; [|done].
  eexists. split; [apply baseUrl_first_non_empty|done].
Qed.

(** [X4] The earlier variant answers as the later one does whenever no
    file is attached or the environment sets a non-empty base URL. *)
Lemma legacy_post_form e now_ms rnd now file b srv :
  file = None ∨ Js.truthy (Js.of_env (BASE_URL e)) = true →
  Legacy.post_form e now_ms rnd now file b srv
  = post_form e now_ms rnd now file b srv.
Proof.
  intros Hsame. unfold Legacy.post_form, post_form.
  assert (file = None ∨ Legacy.baseUrl e = baseUrl e) as [->|Hbase].
  { destruct Hsame as [->|Hset]; [by left|right].
    unfold Legacy.baseUrl, baseUrl, Js.or. by rewrite Hset. }
  - simpl.
    destruct (Js.truthy (FormBody.owner b)),
      (Js.truthy (FormBody.shopname b)),
      (Js.truthy (FormBody.businesstype b)),
      (Js.truthy (FormBody.phone b)),
      (Js.truthy (FormBody.location b)); reflexivity.
  - rewrite Hbase.
    destruct (upload_single now_ms rnd file srv) as [req_file srv1].
    destruct (Js.truthy (FormBody.owner b)),
      (Js.truthy (FormBody.shopname b)),
      (Js.truthy (FormBody.businesstype b)),
      (Js.truthy (FormBody.phone b)),
      (Js.truthy (FormBody.location b)); reflexivity.
Qed.

Lemma of_int_not_dotfile n s : String.prefix "." (Js.of_int n +:+ s) = false.
Proof.
  unfold Js.of_int.
  by destruct (Z.to_int n) as [[]|[]].
Qed.

(** [C9] A POST /api/form with a photo that is answered 400: the
    upload middleware has already written the file under its generated
    name, nothing removes it, the store is as it was, and the static
    route serves the file. *)
Theorem post_form_rejected_keeps_file e now_ms rnd now f b srv :
  Http.status (post_form e now_ms rnd now (Some f) b srv).1 = 400 →
  uploads (post_form e now_ms rnd now (Some f) b srv).2
  = <[filename now_ms rnd f := content f]> (uploads srv)
  ∧ store (post_form e now_ms rnd now (Some f) b srv).2 = store srv
  ∧ get_uploads (filename now_ms rnd f)
      (post_form e now_ms rnd now (Some f) b srv).2
    = Http.File (content f).
Proof.
  intros H400.
  destruct (post_form_status e now_ms rnd now (Some f) b srv)
    as [[_ Hne]|[_ Hbad]]; [done|].
  rewrite Hbad. simpl. split; [done|]. split; [done|].
  unfold get_uploads. simpl.
  unfold filename at 1. rewrite !string_app_assoc, of_int_not_dotfile.
  by rewrite lookup_insert_eq.
Qed.

End Form.

Section Listing.

Lemma list_ascii_of_string_app (a b : string) :
  list_ascii_of_string (a +:+ b)
  = (list_ascii_of_string a ++ list_ascii_of_string b).
Proof. induction a as [|c a IH]; simpl; [done|by rewrite IH]. Qed.

(** A pattern that ends with [%] is well formed. *)
Lemma like_parse_percent_end (p : list ascii) :
  is_Some (Pg.like_parse (p ++ ["%"%char]))
  ∧ ∀ c, is_Some (Pg.like_parse (c :: p ++ ["%"%char])).
Proof.
  induction p as [|d p [IH1 IH2]].
  - split; [by eexists|]. intros c. simpl.
    destruct (Ascii.eqb c "\"), (Ascii.eqb c "%"), (Ascii.eqb c "_");
      by eexists.
  - split; [apply IH2|]. intros c.
    change (Pg.like_parse (c :: (d :: p) ++ ["%"%char])) with
      (if Ascii.eqb c "\"
       then cons (Pg.LChar d) <$> Pg.like_parse (p ++ ["%"%char])
       else if Ascii.eqb c "%"
       then cons Pg.LAny <$> Pg.like_parse (d :: p ++ ["%"%char])
       else if Ascii.eqb c "_"
       then cons Pg.LOne <$> Pg.like_parse (d :: p ++ ["%"%char])
       else cons (Pg.LChar c) <$> Pg.like_parse (d :: p ++ ["%"%char])).
    destruct IH1 as [t1 ->], (IH2 d) as [t2 ->].
    destruct (Ascii.eqb c "\"), (Ascii.eqb c "%"), (Ascii.eqb c "_");
      by eexists.
Qed.

Lemma lower_app (a b : list ascii) :
  Pg.lower (a ++ b) = (Pg.lower a ++ Pg.lower b).
Proof. apply map_app. Qed.

(** The search never raises: its pattern ends with [%]. *)
Lemma ilike_search_total (text : string) (search : Js.value) :
  is_Some (Pg.ilike text (search_pattern search)).
Proof.
  unfold Pg.ilike, search_pattern.
  rewrite !list_ascii_of_string_app, app_assoc, lower_app.
  rewrite lower_app.
  destruct (proj1 (like_parse_percent_end
    (Pg.lower (list_ascii_of_string "%")
     ++ Pg.lower (list_ascii_of_string (Js.to_string search)))))
    as [toks Htoks].
  change (Pg.lower (list_ascii_of_string "%")) with ["%"%char].
  change (Pg.lower (list_ascii_of_string "%")) with ["%"%char] in Htoks.
  rewrite Htoks. by eexists.
Qed.

Lemma filter_where_spec params cs (f : Todo.t → bool) rows :
  (∀ r, eval_where params cs r = Some (f r)) →
  filter_where params cs rows = Some (filter (λ r, f r = true) rows).
Proof.
  intros Hf. induction rows as [|r rows IH]; simpl; [done|].
  rewrite Hf, IH. simpl. rewrite filter_cons.
  destruct (f r); by case_decide.
Qed.

Lemma eval_where_listed q r :
  eval_where (todos_query q).1 (todos_query q).2 r = Some (listed q r).
Proof.
  unfold todos_query, listed.
  destruct (ilike_search_total (Todo.title r) (TodoQuery.search q))
    as [m Hm].
  unfold search_pattern in *.
  destruct (Js.truthy (TodoQuery.search q));
    destruct (Js.strict_eq (TodoQuery.status q) (Js.Str "completed"));
    try destruct (Js.strict_eq (TodoQuery.status q) (Js.Str "pending"));
    simpl; rewrite ?Hm; simpl;
    destruct m; try destruct (Todo.completed r) as [[]|]; reflexivity.
Qed.

(** GET /api/todos always answers 200, with the kept rows of the table
    ordered by id. *)
Lemma get_todos_rows q srv :
  get_todos q srv
  = Http.Response 200
      (Http.Rows (order_by_id_desc Todo.id
                    (filter (λ r, listed q r = true) (todos (store srv))))).
Proof.
  unfold get_todos, select_todos.
  pose proof (eval_where_listed q) as Hw.
  destruct (todos_query q) as [params conditions]. simpl in Hw.
  by rewrite (filter_where_spec _ _ _ _ Hw).
Qed.

Lemma get_todos_elem_of q srv x :
  x ∈ order_by_id_desc Todo.id
        (filter (λ r, listed q r = true) (todos (store srv)))
  ↔ listed q x = true ∧ x ∈ todos (store srv).
Proof.
  unfold order_by_id_desc.
  by rewrite merge_sort_Permutation, list_elem_of_filter.
Qed.

End Listing.

Section Todos.
Context {pg : Pg.Input}.

Lemma bind_due_date v :
  Pg.bind Pg.timestamp_in (Pg.prepareValue (Js.or v Js.Null)) = due_date_of v.
Proof.
  unfold due_date_of, Js.or.
  destruct (Js.truthy v) eqn:Hv; [|reflexivity].
  by rewrite prepareValue_truthy.
Qed.

Lemma bind_completed v :
  Pg.bind Pg.bool_in (Pg.prepareValue v) = completed_of v.
Proof. by destruct v as [| |[]|s]. Qed.

Lemma prepare_or_empty v :
  Pg.prepareValue (Js.or v (Js.Str ""))
  = Some (if Js.truthy v then Js.to_string v else "").
Proof.
  unfold Js.or. destruct (Js.truthy v) eqn:Hv; [|reflexivity].
  by apply prepareValue_truthy.
Qed.

Lemma prepare_or_null v :
  Pg.prepareValue (Js.or v Js.Null)
  = if Js.truthy v then Some (Js.to_string v) else None.
Proof.
  unfold Js.or. destruct (Js.truthy v) eqn:Hv; [|reflexivity].
  by apply prepareValue_truthy.
Qed.

Lemma todos_fresh_id d :
  todos_sequenced d →
  forallb (λ r, negb (Todo.id r =? todos_id_seq d)) (todos d) = true.
Proof.
  unfold todos_sequenced. intros Hseq. apply forallb_forall.
  intros r Hr. rewrite Forall_forall in Hseq.
  apply list_elem_of_In, Hseq in Hr.
  apply negb_true_iff, Z.eqb_neq. lia.
Qed.

(** [C4] POST /api/todos with an empty or absent (falsy) title answers
    400 and leaves the server as it was.  With a non-empty title that
    the store accepts (at most 255 characters, a supplied due_date that
    reads as a timestamp), in a table that obeys its schema, it
    answers 200 with the created row, which is appended to the
    table: description is the empty string when absent, due_date is
    NULL when absent, completed is false. *)
Theorem post_todos_spec now b srv :
  (Js.truthy (TodoBody.title b) = false →
   post_todos now b srv = (Http.json_error 400 "Title is required", srv))
  ∧ (∀ due,
       Js.truthy (TodoBody.title b) = true →
       (String.length (Js.to_string (TodoBody.title b)) ≤ 255)%nat →
       due_date_of (TodoBody.due_date b) = Some due →
       todos_ok (store srv) →
       let row :=
         {| Todo.id := todos_id_seq (store srv);
            Todo.title := Js.to_string (TodoBody.title b);
            Todo.description :=
              Some (if Js.truthy (TodoBody.description b)
                    then Js.to_string (TodoBody.description b) else "");
            Todo.completed := Some false;
            Todo.due_date := due;
            Todo.created_at := now |} in
       post_todos now b srv
       = (Http.Response 200 (Http.Success row),
          set_store (set_todos (todos (store srv) ++ [row])
                       (todos_id_seq (store srv) + 1) (store srv)) srv)
       ∧ (Js.truthy (TodoBody.due_date b) = false → due = None)).
Proof.
  split.
  - intros Ht. unfold post_todos. by rewrite Ht.
  - intros due Ht Hlen Hdue [Hseq _] row. split.
    + unfold post_todos, insert_todo. rewrite Ht. simpl.
      rewrite bind_due_date, Hdue.
      rewrite (prepareValue_truthy _ Ht). simpl.
      rewrite (varchar_fits _ _ Hlen). simpl.
      rewrite (todos_fresh_id _ Hseq).
      by rewrite prepare_or_empty.
    + intros Hd. unfold due_date_of in Hdue. rewrite Hd in Hdue. congruence.
Qed.

(** [C10] PUT and DELETE /api/todos/:id with an id that the store does
    not read as an integer: the id text reaches the statement as it is,
    the statement fails, and the answer is 500, not 404; the server,
    hence the todos table, is as it was. *)
Theorem todos_id_not_integer id b srv :
  Pg.int4_in id = None →
  put_todos id b srv = (Http.Response 500 (Http.Error "Database update failed"), srv)
  ∧ delete_todos id srv
    = (Http.Response 500 (Http.Error "Database delete failed"), srv).
Proof.
  intros Hid. split.
  - unfold put_todos, update_todo. simpl. rewrite Hid. simpl.
    destruct (Pg.bind Pg.bool_in _) as [c|]; simpl;
      [|by rewrite set_store_same].
    destruct (Pg.bind Pg.timestamp_in _) as [dd|]; simpl;
      by rewrite set_store_same.
  - unfold delete_todos, delete_todo. simpl. rewrite Hid. simpl.
    by rewrite set_store_same.
Qed.

Lemma id_is_true n r : id_is (Some n) r = true ↔ Todo.id r = n.
Proof. apply Z.eqb_eq. Qed.

Lemma filter_all {A} (P : A → Prop) `{!∀ x, Decision (P x)} (l : list A) :
  (∀ x, x ∈ l → P x) → filter P l = l.
Proof.
  induction l as [|x l IH]; intros HP; [done|].
  rewrite filter_cons_True by (apply HP; left).
  f_equal. apply IH. intros y Hy. apply HP. by right.
Qed.

Lemma delete_todo_integer id n d :
  Pg.int4_in id = Some n →
  delete_todo (Some id) d
  = (Some (filter (λ r, id_is (Some n) r = true) (todos d)),
     set_todos (filter (λ r, id_is (Some n) r ≠ true) (todos d))
       (todos_id_seq d) d).
Proof. intros Hid. unfold delete_todo. simpl. by rewrite Hid. Qed.

(** [C5] DELETE /api/todos/:id with an id that reads as the integer
    [n].  When a row has that id, the answer is 200 with the
    confirmation message and a deleted row of that id, the table keeps
    exactly its rows of another id, and no later list, whatever its
    query, holds a row of id [n].  When no row has that id, the answer
    is 404 and the server, hence the todos table, is as it was. *)
Theorem delete_todos_spec id n srv :
  Pg.int4_in id = Some n →
  ((∃ r, r ∈ todos (store srv) ∧ Todo.id r = n) →
   ∃ r srv',
     r ∈ todos (store srv) ∧ Todo.id r = n
     ∧ delete_todos id srv
       = (Http.Response 200 (Http.SuccessMessage "To-Do deleted" r), srv')
     ∧ (∀ x, x ∈ todos (store srv')
             ↔ x ∈ todos (store srv) ∧ Todo.id x ≠ n)
     ∧ ∀ q, ∃ rows,
         get_todos q srv' = Http.Response 200 (Http.Rows rows)
         ∧ ∀ x, x ∈ rows → Todo.id x ≠ n)
  ∧ ((∀ r, r ∈ todos (store srv) → Todo.id r ≠ n) →
     delete_todos id srv
     = (Http.Response 404 (Http.Error "To-Do not found"), srv)).
Proof.
  intros Hid. unfold delete_todos.
  change (Pg.prepareValue (Js.Str id)) with (Some id).
  rewrite (delete_todo_integer _ _ _ Hid).
  split.
  - intros (r & Hr & Hn).
    destruct (filter (λ r0, id_is (Some n) r0 = true) (todos (store srv)))
      as [|r0 rest] eqn:Hhit.
    { exfalso. eapply filter_nil_not_elem_of; [exact Hhit| |exact Hr].
      by apply id_is_true. }
    assert (r0 ∈ filter (λ r0, id_is (Some n) r0 = true) (todos (store srv)))
      as Hr0 by (rewrite Hhit; left).
    apply list_elem_of_filter in Hr0 as [Hr0n Hr0].
    apply id_is_true in Hr0n.
    eexists r0, _. split; [done|]. split; [done|]. split; [reflexivity|].
    assert (∀ x, x ∈ filter (λ r1, id_is (Some n) r1 ≠ true) (todos (store srv))
                 ↔ x ∈ todos (store srv) ∧ Todo.id x ≠ n) as Htbl.
    { intros x. rewrite list_elem_of_filter, id_is_true. tauto. }
    split; [exact Htbl|].
    intros q. eexists. split; [apply get_todos_rows|].
    intros x Hx. apply get_todos_elem_of in Hx as [_ Hx].
    by apply Htbl in Hx as [_ Hx].
  - intros Hnone.
    assert (filter (λ r, id_is (Some n) r = true) (todos (store srv)) = [])
      as ->.
    { destruct (filter _ _) as [|r0 rest] eqn:Hhit; [done|].
      assert (r0 ∈ filter (λ r0, id_is (Some n) r0 = true)
                      (todos (store srv))) as Hr0 by (rewrite Hhit; left).
      apply list_elem_of_filter in Hr0 as [Hr0n Hr0].
      apply id_is_true in Hr0n. by apply Hnone in Hr0. }
    rewrite filter_all.
    + destruct srv as [[] ?]. reflexivity.
    + intros x Hx. rewrite id_is_true. by apply Hnone.
Qed.

Lemma update_rows_spec hit set (f : Todo.t → Todo.t) rows :
  (∀ r, r ∈ rows → hit r = true → set r = Some (f r)) →
  update_rows hit set rows
  = Some ((λ r, if hit r then f r else r) <$> rows,
          f <$> filter (λ r, hit r = true) rows).
Proof.
  induction rows as [|r rows IH]; intros Hset; [done|].
  simpl. rewrite IH by (intros x Hx; apply Hset; by right).
  rewrite filter_cons. destruct (hit r) eqn:Hr.
  - rewrite (Hset r) by (done || by left). by case_decide.
  - by case_decide.
Qed.

(** Under the primary key, the rows of one id are one row. *)
Lemma filter_primary_key (rows : list Todo.t) r :
  NoDup (Todo.id <$> rows) → r ∈ rows →
  filter (λ x, id_is (Some (Todo.id r)) x = true) rows = [r].
Proof.
  induction rows as [|x rows IH]; intros Hnd Hr; [by inv Hr|].
  rewrite fmap_cons in Hnd. apply NoDup_cons in Hnd as [Hx Hnd].
  apply elem_of_cons in Hr as [->|Hr].
  - rewrite filter_cons_True by by apply id_is_true.
    f_equal. destruct (filter _ rows) as [|y ys] eqn:Hf; [done|].
    assert (y ∈ filter (λ x0, id_is (Some (Todo.id x)) x0 = true) rows)
      as Hy by (rewrite Hf; left).
    apply list_elem_of_filter in Hy as [Hyx Hy]. apply id_is_true in Hyx.
    exfalso. apply Hx. rewrite <- Hyx. by apply list_elem_of_fmap_2.
  - rewrite filter_cons_False; [by apply IH|].
    rewrite id_is_true. intros Heq. apply Hx. rewrite Heq.
    by apply list_elem_of_fmap_2.
Qed.

Lemma primary_key_unique (rows : list Todo.t) r x :
  NoDup (Todo.id <$> rows) → r ∈ rows → x ∈ rows →
  Todo.id x = Todo.id r → x = r.
Proof.
  intros Hnd Hr Hx Hid.
  assert (x ∈ filter (λ y, id_is (Some (Todo.id r)) y = true) rows) as Hin
    by (apply list_elem_of_filter; split; [by apply id_is_true|done]).
  rewrite (filter_primary_key _ _ Hnd Hr) in Hin.
  by apply list_elem_of_singleton in Hin.
Qed.

Lemma set_todo_put_row b c due r :
  (String.length (Todo.title r) ≤ 255)%nat →
  (Js.truthy (TodoBody.title b) = true →
   (String.length (Js.to_string (TodoBody.title b)) ≤ 255)%nat) →
  set_todo (Pg.prepareValue (Js.or (TodoBody.title b) Js.Null))
    (Pg.prepareValue (Js.or (TodoBody.description b) Js.Null)) c due r
  = Some (put_row b c due r).
Proof.
  intros Hr Hb. unfold set_todo, put_row. rewrite !prepare_or_null.
  destruct (Js.truthy (TodoBody.title b)); simpl.
  - rewrite varchar_fits by auto. simpl.
    by destruct (Js.truthy (TodoBody.description b)), c, due.
  - rewrite varchar_fits by auto. simpl.
    by destruct (Js.truthy (TodoBody.description b)), c, due.
Qed.

Lemma put_todos_row id b srv r c due :
  Pg.int4_in id = Some (Todo.id r) →
  NoDup (Todo.id <$> todos (store srv)) →
  r ∈ todos (store srv) →
  (String.length (Todo.title r) ≤ 255)%nat →
  (Js.truthy (TodoBody.title b) = true →
   (String.length (Js.to_string (TodoBody.title b)) ≤ 255)%nat) →
  completed_of (TodoBody.completed b) = Some c →
  due_date_of (TodoBody.due_date b) = Some due →
  put_todos id b srv
  = (Http.Response 200 (Http.Success (put_row b c due r)),
     set_store
       (set_todos
          ((λ x, if Todo.id x =? Todo.id r then put_row b c due r else x)
             <$> todos (store srv))
          (todos_id_seq (store srv)) (store srv)) srv).
Proof.
  intros Hid Hnd Hr Hlen Hfit Hc Hdue.
  unfold put_todos, update_todo.
  rewrite bind_completed, Hc, bind_due_date, Hdue.
  change (Pg.bind Pg.int4_in (Pg.prepareValue (Js.Str id)))
    with (Some <$> Pg.int4_in id).
  rewrite Hid.
  change (Some <$> Some (Todo.id r)) with (Some (Some (Todo.id r))).
  cbn [mbind option_bind].
  rewrite (update_rows_spec _ _ (put_row b c due)).
  - rewrite (filter_primary_key _ _ Hnd Hr). cbn [fmap list_fmap].
    do 3 f_equal. apply list_fmap_ext. intros i x Hx.
    apply list_elem_of_lookup_2 in Hx.
    unfold id_is. destruct (Z.eqb_spec (Todo.id x) (Todo.id r)) as [Heq|];
      [|done].
    by rewrite (primary_key_unique _ _ _ Hnd Hr Hx Heq).
  - intros x Hx Hhit. apply id_is_true in Hhit.
    rewrite (primary_key_unique _ _ _ Hnd Hr Hx Hhit).
    by apply set_todo_put_row.
Qed.

(** [C1] PUT /api/todos/:id on the row [r] of that id, in a table that
    obeys its schema, with supplied values the
    store accepts (a title of at most 255 characters, a completed that
    reads as a boolean, a due_date that reads as a timestamp).  The
    answer is 200 with the updated row, which replaces [r] in the
    table.  In that row title, description and due_date keep the value
    of [r] when the supplied value is absent, null, the empty string or
    otherwise falsy, and take the supplied value otherwise; completed
    keeps the value of [r] exactly when the supplied value is absent or
    null, and takes the supplied boolean otherwise.  A body that holds
    only completed: true sets completed and keeps the three others. *)
Theorem put_todos_spec id b srv r :
  Pg.int4_in id = Some (Todo.id r) →
  todos_ok (store srv) →
  r ∈ todos (store srv) →
  (∀ c due,
     (Js.truthy (TodoBody.title b) = true →
      (String.length (Js.to_string (TodoBody.title b)) ≤ 255)%nat) →
     completed_of (TodoBody.completed b) = Some c →
     due_date_of (TodoBody.due_date b) = Some due →
     let r' :=
       {| Todo.id := Todo.id r;
          Todo.title :=
            if Js.truthy (TodoBody.title b)
            then Js.to_string (TodoBody.title b) else Todo.title r;
          Todo.description :=
            if Js.truthy (TodoBody.description b)
            then Some (Js.to_string (TodoBody.description b))
            else Todo.description r;
          Todo.completed :=
            match c with Some x => Some x | None => Todo.completed r end;
          Todo.due_date :=
            match due with Some x => Some x | None => Todo.due_date r end;
          Todo.created_at := Todo.created_at r |} in
     put_todos id b srv
     = (Http.Response 200 (Http.Success r'),
        set_store
          (set_todos
             ((λ x, if Todo.id x =? Todo.id r then r' else x)
                <$> todos (store srv))
             (todos_id_seq (store srv)) (store srv)) srv)
     ∧ (c = None ↔ TodoBody.completed b = Js.Undefined
                   ∨ TodoBody.completed b = Js.Null)
     ∧ (due = None ↔ Js.truthy (TodoBody.due_date b) = false))
  ∧ (b = {| TodoBody.title := Js.Undefined;
            TodoBody.description := Js.Undefined;
            TodoBody.completed := Js.Bool true;
            TodoBody.due_date := Js.Undefined |} →
     (put_todos id b srv).1
     = Http.Response 200
         (Http.Success
            {| Todo.id := Todo.id r; Todo.title := Todo.title r;
               Todo.description := Todo.description r;
               Todo.completed := Some true;
               Todo.due_date := Todo.due_date r;
               Todo.created_at := Todo.created_at r |})).
Proof.
  intros Hid (_ & Hnd & Hlen) Hr.
  rewrite Forall_forall in Hlen. specialize (Hlen r Hr). split.
  - intros c due Hfit Hc Hdue r'. split; [|split].
    + by apply put_todos_row.
    + unfold completed_of in Hc.
      destruct (TodoBody.completed b) as [| |x|s]; simplify_eq/=.
      * split; auto.
      * split; auto.
      * destruct (Pg.bool_in _); simplify_eq/=.
        split; [done|]. by intros [|].
      * destruct (Pg.bool_in _); simplify_eq/=.
        split; [done|]. by intros [|].
    + unfold due_date_of in Hdue.
      destruct (Js.truthy (TodoBody.due_date b)); simplify_eq/=; [|done].
      destruct (Pg.timestamp_in _); simplify_eq/=. done.
  - intros ->.
    rewrite (put_todos_row id _ srv r (Some true) None); try done.
    unfold completed_of. simpl. by rewrite Pg.bool_in_true.
Qed.

(** *** The schema is an invariant of the to-do handlers *)

Lemma substring_length (n : nat) (s : string) :
  (String.length (substring 0 n s) ≤ n)%nat.
Proof.
  revert s. induction n as [|n IH]; intros [|c s]; simpl; try lia.
  specialize (IH s). lia.
Qed.

Lemma varchar_length n s s' :
  Pg.varchar n s = Some s' → (String.length s' ≤ n)%nat.
Proof.
  unfold Pg.varchar.
  destruct (Nat.leb_spec (String.length s) n); [by intros [= <-]|].
  destruct (forallb _ _); [|done]. intros [= <-]. apply substring_length.
Qed.

Lemma insert_todo_ok now p1 p2 p3 d :
  todos_ok d → todos_ok (insert_todo now p1 p2 p3 d).2.
Proof.
  intros (Hseq & Hnd & Hlen). unfold insert_todo.
  destruct (Pg.bind Pg.timestamp_in p3) as [due|]; [|done].
  assert (todos_ok (set_todos (todos d) (todos_id_seq d + 1) d)) as Hfail.
  { split; [|done]. unfold todos_sequenced in *. simpl.
    eapply Forall_impl; [exact Hseq|]. simpl. intros; lia. }
  destruct (Pg.not_null p1 ≫= Pg.varchar 255) as [title|] eqn:Htitle;
    [|done]. simpl.
  destruct (forallb _ _); [|done]. simpl.
  destruct p1 as [t|]; [|done]. simpl in Htitle.
  apply varchar_length in Htitle.
  unfold todos_ok, todos_sequenced in *. simpl. split; [|split].
  - apply Forall_app. split.
    + eapply Forall_impl; [exact Hseq|]. simpl. intros; lia.
    + apply Forall_singleton. simpl. lia.
  - rewrite fmap_app. apply NoDup_app. split; [done|]. split.
    + intros x Hx Hin. apply list_elem_of_singleton in Hin as ->.
      apply list_elem_of_fmap in Hx as (r & Hr & Hin).
      rewrite Forall_forall in Hseq. apply Hseq in Hin. simpl in Hr. lia.
    + apply NoDup_singleton.
  - apply Forall_app. split; [done|]. by apply Forall_singleton.
Qed.

Lemma update_rows_ok hit p1 p2 c dd rows tbl ret :
  update_rows hit (set_todo p1 p2 c dd) rows = Some (tbl, ret) →
  Todo.id <$> tbl = Todo.id <$> rows
  ∧ (Forall (λ r, (String.length (Todo.title r) ≤ 255)%nat) rows →
     Forall (λ r, (String.length (Todo.title r) ≤ 255)%nat) tbl).
Proof.
  revert tbl ret. induction rows as [|r rows IH]; intros tbl ret Hupd.
  { by simplify_eq/=. }
  simpl in Hupd. destruct (hit r).
  - destruct (set_todo p1 p2 c dd r) as [r'|] eqn:Hset; [|done].
    simpl in Hupd.
    destruct (update_rows _ _ rows) as [[tbl' ret']|]; [|done].
    simplify_eq/=. destruct (IH _ _ eq_refl) as [Hids Hlens].
    unfold set_todo in Hset.
    destruct (Pg.not_null _ ≫= Pg.varchar 255) as [t|] eqn:Ht; [|done].
    simplify_eq/=. split; [by rewrite Hids|].
    intros [_ Hrows]%Forall_cons. constructor; [|by apply Hlens].
    simpl. destruct (Pg.coalesce p1 _); [|done].
    by apply varchar_length in Ht.
  - destruct (update_rows _ _ rows) as [[tbl' ret']|]; [|done].
    simplify_eq/=. destruct (IH _ _ eq_refl) as [Hids Hlens].
    split; [by rewrite Hids|].
    intros [Hr Hrows]%Forall_cons. constructor; [done|by apply Hlens].
Qed.

Lemma update_todo_ok p1 p2 p3 p4 p5 d :
  todos_ok d → todos_ok (update_todo p1 p2 p3 p4 p5 d).2.
Proof.
  intros (Hseq & Hnd & Hlen). unfold update_todo.
  destruct (_ ≫= _) as [[tbl ret]|] eqn:Hupd; [|done].
  destruct (Pg.bind Pg.bool_in p3) as [c|]; [|done].
  destruct (Pg.bind Pg.timestamp_in p4) as [dd|]; [|done].
  destruct (Pg.bind Pg.int4_in p5) as [n|]; [|done].
  apply update_rows_ok in Hupd as [Hids Hlens].
  unfold todos_ok, todos_sequenced in *. simpl. split; [|split].
  - apply Forall_forall. intros x Hx.
    assert (Todo.id x ∈ Todo.id <$> todos d) as Hin
      by (rewrite <- Hids; by apply list_elem_of_fmap_2).
    apply list_elem_of_fmap in Hin as (r & -> & Hr).
    rewrite Forall_forall in Hseq. by apply Hseq.
  - by rewrite Hids.
  - by apply Hlens.
Qed.

Lemma Forall_filter_keep {A} (Q P : A → Prop) `{!∀ x, Decision (P x)}
    (l : list A) :
  Forall Q l → Forall Q (filter P l).
Proof.
  rewrite !Forall_forall. intros HQ x Hx.
  apply list_elem_of_filter in Hx as [_ Hx]. by apply HQ.
Qed.

Lemma delete_todo_ok p1 d : todos_ok d → todos_ok (delete_todo p1 d).2.
Proof.
  intros (Hseq & Hnd & Hlen). unfold delete_todo.
  destruct (Pg.bind Pg.int4_in p1) as [n|]; [|done].
  unfold todos_ok, todos_sequenced in *. simpl. split; [|split].
  - by apply Forall_filter_keep.
  - apply (sublist_NoDup _ (Todo.id <$> todos d)); [done|].
    apply fmap_sublist, sublist_filter.
  - by apply Forall_filter_keep.
Qed.

(** [X22] Every to-do handler leaves a table that obeys its schema in
    that state; the table of a new server does. *)
Lemma todos_ok_invariant :
  todos_ok (store empty_server)
  ∧ (∀ now b srv,
       todos_ok (store srv) → todos_ok (store (post_todos now b srv).2))
  ∧ (∀ id b srv,
       todos_ok (store srv) → todos_ok (store (put_todos id b srv).2))
  ∧ (∀ id srv,
       todos_ok (store srv) → todos_ok (store (delete_todos id srv).2)).
Proof.
  split; [split; [constructor|split; constructor]|].
  split; [|split].
  - intros now b srv Hok. unfold post_todos.
    destruct (Js.truthy (TodoBody.title b)); [|done]. simpl.
    pose proof (insert_todo_ok now
      (Pg.prepareValue (TodoBody.title b))
      (Pg.prepareValue (Js.or (TodoBody.description b) (Js.Str "")))
      (Pg.prepareValue (Js.or (TodoBody.due_date b) Js.Null))
      (store srv) Hok) as Hins.
    by destruct (insert_todo _ _ _ _ _) as [[row|] d].
  - intros id b srv Hok. unfold put_todos.
    pose proof (update_todo_ok
      (Pg.prepareValue (Js.or (TodoBody.title b) Js.Null))
      (Pg.prepareValue (Js.or (TodoBody.description b) Js.Null))
      (Pg.prepareValue (TodoBody.completed b))
      (Pg.prepareValue (Js.or (TodoBody.due_date b) Js.Null))
      (Pg.prepareValue (Js.Str id)) (store srv) Hok) as Hupd.
    by destruct (update_todo _ _ _ _ _ _) as [[[|row rows]|] d].
  - intros id srv Hok. unfold delete_todos.
    pose proof (delete_todo_ok (Pg.prepareValue (Js.Str id)) (store srv) Hok)
      as Hdel.
    by destruct (delete_todo _ _) as [[[|row rows]|] d].
Qed.

End Todos.

(** [C4], as first stated, fails: a non-empty title of 256 letters is
    rejected by the VARCHAR(255) column and the answer is 500. *)
Lemma post_todos_long_title :
  Js.truthy (TodoBody.title (todo_body (Js.Str (letters 256)))) = true
  ∧ Http.status
      (post_todos (pg:=PgText.input) 7 (todo_body (Js.Str (letters 256)))
         empty_server).1 = 500.
Proof. by vm_compute. Qed.

Lemma post_todos_spec_witness :
  post_todos (pg:=PgText.input) 7 (todo_body (Js.Str "buy milk")) empty_server
  = (Http.Response 200
       (Http.Success (Todo.Row 1 "buy milk" (Some "") (Some false) None 7)),
     set_store
       (set_todos [Todo.Row 1 "buy milk" (Some "") (Some false) None 7] 2
          (store empty_server)) empty_server)
  ∧ (Js.truthy Js.Undefined = false → @None Z = None).
Proof.
  apply (proj2 (post_todos_spec (pg:=PgText.input) 7
                  (todo_body (Js.Str "buy milk")) empty_server) None).
  - reflexivity.
  - simpl. lia.
  - reflexivity.
  - split; [constructor|]. split; constructor.
Defined.

Lemma todos_id_not_integer_witness :
  put_todos (pg:=PgText.input) "abc" (todo_body (Js.Str "x")) one_todo
  = (Http.Response 500 (Http.Error "Database update failed"), one_todo)
  ∧ delete_todos (pg:=PgText.input) "abc" one_todo
    = (Http.Response 500 (Http.Error "Database delete failed"), one_todo).
Proof. apply todos_id_not_integer. reflexivity. Defined.

(** [C1], as first stated, fails.  An empty string supplied for the
    title is neither absent nor null, and the title is left unchanged;
    and a supplied title of 256 letters on an existing id is rejected by
    the VARCHAR(255) column: the answer is 500 and carries no row. *)
Lemma put_todos_empty_title_kept :
  (∃ r',
     Http.data (put_todos (pg:=PgText.input) "1" (todo_body (Js.Str ""))
                  one_todo).1 = Some r'
     ∧ ¬ (Todo.title r' = Todo.title milk
          ↔ Js.Str "" = Js.Undefined ∨ Js.Str "" = Js.Null))
  ∧ (put_todos (pg:=PgText.input) "1" (todo_body (Js.Str (letters 256)))
       one_todo).1
    = Http.Response 500 (Http.Error "Database update failed").
Proof.
  split; [|by vm_compute].
  exists milk. split; [by vm_compute|].
  intros [Hkept _]. by destruct (Hkept eq_refl).
Qed.

Lemma one_todo_ok : todos_ok (store one_todo).
Proof.
  split; [|split].
  - by repeat constructor.
  - apply NoDup_singleton.
  - repeat constructor.
Defined.

Lemma put_todos_spec_witness :
  (put_todos (pg:=PgText.input) "1" feed_the_cat one_todo
   = (Http.Response 200
        (Http.Success (Todo.Row 1 "feed the cat" (Some "") (Some true)
                         (Some 0) 0)),
      set_store
        (set_todos
           [Todo.Row 1 "feed the cat" (Some "") (Some true) (Some 0) 0] 2
           (store one_todo)) one_todo)
   ∧ (Some true = None ↔ Js.Str "yes" = Js.Undefined ∨ Js.Str "yes" = Js.Null)
   ∧ (Some 0 = None ↔ Js.truthy (Js.Str "epoch") = false))
  ∧ (put_todos (pg:=PgText.input) "1" completed_only one_todo).1
    = Http.Response 200
        (Http.Success (Todo.Row 1 "buy milk" (Some "") (Some true) None 0)).
Proof.
  split.
  - apply (proj1 (put_todos_spec (pg:=PgText.input) "1" feed_the_cat
                    one_todo milk eq_refl one_todo_ok ltac:(by left))
             (Some true) (Some 0)).
    + simpl. lia.
    + reflexivity.
    + reflexivity.
  - apply (proj2 (put_todos_spec (pg:=PgText.input) "1" completed_only
                    one_todo milk eq_refl one_todo_ok ltac:(by left))).
    reflexivity.
Defined.

(** [C5], as first stated, fails on an id that is not an integer: no
    row matches it, and the answer is 500, not 404. *)
Lemma delete_todos_not_integer :
  todos (store empty_server) = []
  ∧ (delete_todos (pg:=PgText.input) "abc" empty_server).1
    = Http.Response 500 (Http.Error "Database delete failed").
Proof. by vm_compute. Qed.

Lemma delete_todos_spec_witness :
  (∃ r srv',
     r ∈ todos (store one_todo) ∧ Todo.id r = 1
     ∧ delete_todos (pg:=PgText.input) "1" one_todo
       = (Http.Response 200 (Http.SuccessMessage "To-Do deleted" r), srv')
     ∧ (∀ x, x ∈ todos (store srv')
             ↔ x ∈ todos (store one_todo) ∧ Todo.id x ≠ 1)
     ∧ ∀ q, ∃ rows,
         get_todos q srv' = Http.Response 200 (Http.Rows rows)
         ∧ ∀ x, x ∈ rows → Todo.id x ≠ 1)
  ∧ delete_todos (pg:=PgText.input) "7" one_todo
    = (Http.Response 404 (Http.Error "To-Do not found"), one_todo).
Proof.
  split.
  - apply (proj1 (delete_todos_spec (pg:=PgText.input) "1" 1 one_todo eq_refl)).
    exists milk. split; [by left|reflexivity].
  - apply (proj2 (delete_todos_spec (pg:=PgText.input) "7" 7 one_todo eq_refl)).
    intros r Hr. apply list_elem_of_singleton in Hr as ->. simpl. lia.
Defined.

(** ** The extension of an uploaded file *)

Section Extname.

Lemma step_plain i x s :
  plain x → Path.startDot s = -1 → Path.end_ s ≠ -1 →
  Path.step i x s = (s, false).
Proof.
  intros [Hslash Hdot] Hstart Hend. unfold Path.step.
  apply Ascii.eqb_neq in Hslash, Hdot. rewrite Hslash, Hdot.
  apply Z.eqb_neq in Hend. rewrite Hend, Hstart. reflexivity.
Qed.

Lemma loop_plain l rest i s :
  Forall plain l → Path.startDot s = -1 → Path.end_ s ≠ -1 →
  Path.loop (l ++ rest) i s = Path.loop rest (i - Z.of_nat (length l)) s.
Proof.
  intros Hl Hstart Hend. revert i.
  induction Hl as [|x l Hx Hl IH]; intros i; simpl.
  - f_equal. lia.
  - rewrite step_plain by done. rewrite IH. f_equal. lia.
Qed.

Lemma step_first i x :
  plain x →
  Path.step i x Path.scan0
  = ({| Path.startDot := -1; Path.startPart := 0; Path.end_ := i + 1;
        Path.matchedSlash := false; Path.preDotState := 0 |}, false).
Proof.
  intros [Hslash Hdot]. unfold Path.step.
  apply Ascii.eqb_neq in Hslash, Hdot. by rewrite Hslash, Hdot.
Qed.

Lemma step_dot i s :
  Path.startDot s = -1 → Path.end_ s ≠ -1 →
  Path.step i "." s
  = ({| Path.startDot := i; Path.startPart := Path.startPart s;
        Path.end_ := Path.end_ s; Path.matchedSlash := Path.matchedSlash s;
        Path.preDotState := Path.preDotState s |}, false).
Proof.
  intros Hstart Hend. unfold Path.step. simpl.
  apply Z.eqb_neq in Hend. by rewrite Hend, Hstart.
Qed.

Lemma step_before_dot i c s D E :
  c ≠ "/"%char → D ≠ -1 → E ≠ -1 →
  Path.startDot s = D → Path.end_ s = E → Path.preDotState s = 0 →
  settled D E (Path.step i c s).1 ∧ (Path.step i c s).2 = false.
Proof.
  intros Hslash HD HE Hstart Hend Hpre. unfold Path.step, settled.
  apply Ascii.eqb_neq in Hslash. rewrite Hslash.
  apply Z.eqb_neq in HD, HE. rewrite Hend, HE, Hstart, HD, Hpre.
  destruct (Ascii.eqb c "."); simpl; auto.
Qed.

Lemma step_settled i c s D E :
  D ≠ -1 → E ≠ -1 → settled D E s → settled D E (Path.step i c s).1.
Proof.
  intros HD HE (Hstart & Hend & Hpre). unfold Path.step, settled.
  apply Z.eqb_neq in HD, HE. rewrite Hend, HE, Hstart, HD.
  destruct (Ascii.eqb c "/"), (Path.matchedSlash s), (Ascii.eqb c ".");
    simpl; auto;
    destruct (Path.preDotState s =? 1); simpl; auto.
Qed.

Lemma loop_settled l i s D E :
  D ≠ -1 → E ≠ -1 → settled D E s → settled D E (Path.loop l i s).
Proof.
  intros HD HE. revert i s.
  induction l as [|c l IH]; intros i s Hs; simpl; [done|].
  pose proof (step_settled i c s D E HD HE Hs) as Hstep.
  destruct (Path.step i c s) as [s' brk]. simpl in Hstep.
  destruct brk; [done|by apply IH].
Qed.

Lemma substring_all (b : string) : substring 0 (String.length b) b = b.
Proof. induction b as [|x b IH]; simpl; [done|by rewrite IH]. Qed.

Lemma substring_app (a b : string) :
  substring (String.length a) (String.length b) (a +:+ b) = b.
Proof.
  induction a as [|x a IH]; [apply substring_all|].
  change (substring (String.length a) (String.length b) (a +:+ b) = b).
  exact IH.
Qed.

Lemma length_list_ascii (s : string) :
  length (list_ascii_of_string s) = String.length s.
Proof. induction s as [|x s IH]; simpl; [done|by rewrite IH]. Qed.

Lemma string_length_app (a b : string) :
  String.length (a +:+ b) = (String.length a + String.length b)%nat.
Proof.
  rewrite <- !length_list_ascii, list_ascii_of_string_app.
  apply length_app.
Qed.

(** The scan of [p ++ c :: "." :: l ++ [x]], read from its end. *)
Lemma scan_stem_ext p c l x :
  c ≠ "/"%char → plain x → Forall plain l →
  settled (Z.of_nat (length p) + 1)
    (Z.of_nat (length p) + Z.of_nat (length l) + 3)
    (Path.loop (x :: rev l ++ "."%char :: c :: rev p)
       (Z.of_nat (length p) + Z.of_nat (length l) + 3 - 1) Path.scan0).
Proof.
  intros Hc Hx Hl.
  set (len := Z.of_nat (length p) + Z.of_nat (length l) + 3).
  set (D := Z.of_nat (length p) + 1).
  simpl. rewrite (step_first _ _ Hx).
  rewrite loop_plain; [| |done|simpl; lia].
  2:{ apply Forall_forall. intros y Hy. rewrite Forall_forall in Hl.
      by apply Hl, list_elem_of_In, in_rev, list_elem_of_In. }
  rewrite length_rev. simpl.
  rewrite step_dot by (simpl; lia).
  replace (len - 1 - 1 - Z.of_nat (length l)) with D by (subst D len; lia).
  set (sB := {| Path.startDot := D |}).
  destruct (step_before_dot (D - 1) c sB D len Hc) as [Hset Hbrk];
    try (subst D len; simpl; lia); try done.
  destruct (Path.step (D - 1) c sB) as [sC brk]. simpl in Hset, Hbrk.
  subst brk.
  apply loop_settled; [subst D; lia|subst len; lia|done].
Qed.

(** A name made of a stem, a dot and an extension without dot or
    slash has that extension, provided the stem is not empty and does
    not end with a slash. *)
Lemma extname_stem_ext (stem e : string) :
  stem ≠ "" → ¬ ends_with "/" stem →
  e ≠ "" → Forall plain (list_ascii_of_string e) →
  Path.extname (stem +:+ String "." e) = String "." e.
Proof.
  intros Hstem Hslash He Hplain.
  destruct (exists_last (l:=list_ascii_of_string stem)) as (p & c & Hpc).
  { destruct stem; [done|discriminate]. }
  assert (c ≠ "/"%char) as Hc.
  { intros ->. apply Hslash. unfold ends_with. rewrite Hpc.
    by exists p. }
  destruct (exists_last (l:=list_ascii_of_string e)) as (l & x & Hlx).
  { destruct e; [done|discriminate]. }
  rewrite Hlx in Hplain. apply Forall_app in Hplain as [Hl Hx].
  apply Forall_cons in Hx as [Hx _].
  assert (String.length stem = S (length p)) as Hlen_stem.
  { rewrite <- length_list_ascii, Hpc, length_app. simpl. lia. }
  assert (String.length e = S (length l)) as Hlen_e.
  { rewrite <- length_list_ascii, Hlx, length_app. simpl. lia. }
  pose proof (scan_stem_ext p c l x Hc Hx Hl) as (Hstart & Hend & Hpre).
  unfold Path.extname.
  rewrite list_ascii_of_string_app, rev_app_distr.
  change (list_ascii_of_string (String "." e))
    with ("."%char :: list_ascii_of_string e).
  rewrite Hpc, Hlx. simpl rev.
  rewrite !rev_app_distr. simpl rev. simpl app.
  rewrite <- !app_assoc. simpl app.
  rewrite string_length_app. simpl String.length.
  rewrite Hlen_stem, Hlen_e.
  replace (Z.of_nat (S (length p) + S (S (length l))) - 1)
    with (Z.of_nat (length p) + Z.of_nat (length l) + 3 - 1) by lia.
  set (s := Path.loop _ _ _) in *.
  cbv zeta. rewrite Hstart, Hend.
  set (D := Z.of_nat (length p) + 1) in *.
  set (len := Z.of_nat (length p) + Z.of_nat (length l) + 3) in *.
  assert ((D =? -1) = false) as -> by (apply Z.eqb_neq; subst D; lia).
  assert ((len =? -1) = false) as -> by (apply Z.eqb_neq; subst len; lia).
  assert ((D =? len - 1) = false) as -> by (apply Z.eqb_neq; subst D len; lia).
  assert ((Path.preDotState s =? 0) = false) as -> by (apply Z.eqb_neq; lia).
  rewrite andb_false_r. simpl.
  unfold Path.slice.
  replace (Z.to_nat D) with (String.length stem) by (subst D; lia).
  replace (Z.to_nat (len - D)) with (String.length (String "." e))
    by (subst D len; simpl; lia).
  apply substring_app.
Qed.

(** The examples of the Node documentation. *)
Example extname_html : Path.extname "index.html" = ".html".
Proof. reflexivity. Qed.
Example extname_two : Path.extname "index.coffee.md" = ".md".
Proof. reflexivity. Qed.
Example extname_dot : Path.extname "index." = ".".
Proof. reflexivity. Qed.
Example extname_none : Path.extname "index" = "".
Proof. reflexivity. Qed.
Example extname_hidden : Path.extname ".index" = "".
Proof. reflexivity. Qed.
Example extname_hidden_md : Path.extname ".index.md" = ".md".
Proof. reflexivity. Qed.
Example extname_dotdot : Path.extname ".." = "".
Proof. reflexivity. Qed.
Example extname_dir : Path.extname "a.b/c" = "".
Proof. reflexivity. Qed.
Example extname_trailing : Path.extname "a.txt//" = ".txt".
Proof. reflexivity. Qed.

End Extname.

Section Upload.

Lemma ends_with_app (a ext : string) : ends_with ext (a +:+ ext).
Proof.
  unfold ends_with. rewrite list_ascii_of_string_app.
  by apply suffix_app_r.
Qed.

(** [C7] The file of an upload is stored under the decimal
    millisecond timestamp, a hyphen, the decimal random integer and the
    extension [path.extname] gives for the original name.  So a
    successful submission of a file whose name is a non-empty stem that
    does not end with a slash, followed by [.png], has a photo_url that
    ends with [.png]; and a successful submission without a file has a
    NULL photo_url. *)
Theorem upload_filename_extension e now_ms rnd now f b srv :
  uploads (post_form e now_ms rnd now (Some f) b srv).2
  = <[Js.of_int now_ms +:+ "-" +:+ Js.of_int rnd
      +:+ Path.extname (originalname f) := content f]> (uploads srv)
  ∧ (∀ row srv' stem,
       post_form e now_ms rnd now (Some f) b srv
       = (Http.Response 200 (Http.Success row), srv') →
       stem ≠ "" → ¬ ends_with "/" stem →
       originalname f = stem +:+ ".png" →
       ∃ url, FormEntry.photo_url row = Some url ∧ ends_with ".png" url)
  ∧ (∀ row srv',
       post_form e now_ms rnd now None b srv
       = (Http.Response 200 (Http.Success row), srv') →
       FormEntry.photo_url row = None).
Proof.
  split; [|split].
  - rewrite post_form_uploads. simpl. unfold filename.
    by rewrite !string_app_assoc.
  - intros row srv' stem Hpost Hstem Hslash Hname.
    apply post_form_success in Hpost as [_ Hurl]. simpl in Hurl.
    eexists. split; [exact Hurl|].
    unfold filename. rewrite Hname, extname_stem_ext; try done.
    + rewrite <- !string_app_assoc. apply ends_with_app.
    + repeat constructor; done.
  - intros row srv' Hpost.
    by apply post_form_success in Hpost as [_ Hurl].
Qed.

End Upload.

(** [C7], as first stated, fails on a file whose whole name is [.png]:
    the name ends in [.png], [path.extname] gives it no extension, and
    the photo_url does not end in [.png]. *)
Lemma upload_hidden_png :
  ends_with ".png" (originalname hidden_photo)
  ∧ (post_form no_env 1700000000000 123456789 5 (Some hidden_photo) shop
       empty_server).1
    = Http.Response 200
        (Http.Success
           (shop_row
              (Some "https://vendroo-server.onrender.com/uploads/1700000000000-123456789")))
  ∧ ¬ ends_with ".png"
        "https://vendroo-server.onrender.com/uploads/1700000000000-123456789".
Proof.
  split; [by exists []|]. split; [by vm_compute|].
  unfold ends_with. apply (bool_decide_eq_false_1 _). by vm_compute.
Qed.

Lemma upload_filename_extension_witness :
  uploads (post_form no_env 1700000000000 123456789 5 (Some shop_photo) shop
             empty_server).2
  = <[Js.of_int 1700000000000 +:+ "-" +:+ Js.of_int 123456789
      +:+ Path.extname (originalname shop_photo) := content shop_photo]>
      (uploads empty_server)
  ∧ (∃ url,
       FormEntry.photo_url
         (shop_row
            (Some "https://vendroo-server.onrender.com/uploads/1700000000000-123456789.png"))
       = Some url ∧ ends_with ".png" url)
  ∧ FormEntry.photo_url (shop_row None) = None.
Proof.
  split; [|split].
  - apply (upload_filename_extension no_env 1700000000000 123456789 5
             shop_photo shop empty_server).
  - apply (proj1 (proj2 (upload_filename_extension no_env 1700000000000
             123456789 5 shop_photo shop empty_server))
             _ (post_form no_env 1700000000000 123456789 5 (Some shop_photo)
                  shop empty_server).2 "shop").
    + by vm_compute.
    + done.
    + unfold ends_with. apply (bool_decide_eq_false_1 _). by vm_compute.
    + reflexivity.
  - apply (proj2 (proj2 (upload_filename_extension no_env 1700000000000
             123456789 5 shop_photo shop empty_server))
             _ (post_form no_env 1700000000000 123456789 5 None shop
                  empty_server).2).
    by vm_compute.
Defined.

Lemma post_form_photo_url_witness :
  shop_row
    (Some "https://vendroo-server.onrender.com/uploads/1700000000000-123456789.png")
  ∈ form_entries
      (store (post_form no_env 1700000000000 123456789 5 (Some shop_photo)
                shop empty_server).2)
  ∧ ∃ base,
      first_non_empty (base_url_candidates no_env) = Some base
      ∧ FormEntry.photo_url
          (shop_row
             (Some "https://vendroo-server.onrender.com/uploads/1700000000000-123456789.png"))
        = Some (base +:+ "/uploads/"
                +:+ filename 1700000000000 123456789 shop_photo).
Proof.
  apply (post_form_photo_url no_env 1700000000000 123456789 5
           (Some shop_photo) shop empty_server).
  by vm_compute.
Defined.

Lemma post_form_rejected_keeps_file_witness :
  uploads (post_form no_env 1700000000000 123456789 5 (Some shop_photo)
             no_phone empty_server).2
  = <[filename 1700000000000 123456789 shop_photo := content shop_photo]>
      (uploads empty_server)
  ∧ store (post_form no_env 1700000000000 123456789 5 (Some shop_photo)
             no_phone empty_server).2 = store empty_server
  ∧ get_uploads (filename 1700000000000 123456789 shop_photo)
      (post_form no_env 1700000000000 123456789 5 (Some shop_photo)
         no_phone empty_server).2
    = Http.File (content shop_photo).
Proof.
  apply post_form_rejected_keeps_file. reflexivity.
Defined.

(** ** The form list *)

Section FormList.

Lemma StronglySorted_filter {A} (R : relation A) (P : A → Prop)
    `{!∀ x, Decision (P x)} (l : list A) :
  StronglySorted R l → StronglySorted R (filter P l).
Proof.
  induction 1 as [|x l Hl IH Hx]; [constructor|].
  rewrite filter_cons. case_decide; [|done].
  constructor; [done|].
  apply Forall_forall. intros y Hy.
  rewrite Forall_forall in Hx. apply Hx.
  by apply list_elem_of_filter in Hy as [_ Hy].
Qed.

(** What one request does to the table of form entries. *)
Lemma post_form_step e now_ms rnd now file b srv :
  let res := post_form e now_ms rnd now file b srv in
  form_entries_id_seq (store srv) ≤ form_entries_id_seq (store res.2)
  ∧ match Http.data res.1 with
    | Some row =>
        form_entries (store res.2) = form_entries (store srv) ++ [row]
        ∧ FormEntry.id row = form_entries_id_seq (store srv)
        ∧ form_entries_id_seq (store res.2)
          = form_entries_id_seq (store srv) + 1
        ∧ Forall (λ x, FormEntry.id x ≠ FormEntry.id row)
            (form_entries (store srv))
    | None => form_entries (store res.2) = form_entries (store srv)
    end.
Proof.
  intros res. subst res.
  destruct (post_form_status e now_ms rnd now file b srv)
    as [[Hvalid _]|[_ Hbad]].
  - repeat (apply andb_true_iff in Hvalid as [Hvalid ?]).
    rewrite post_form_valid by done. simpl.
    destruct (insert_form_entry _ _ _ _ _ _ _ _ _) as [r d] eqn:Hins.
    apply insert_form_entry_inv in Hins as (Hseq & _ & _ & Hrow).
    rewrite upload_single_store in *. simpl.
    split; [lia|]. destruct r as [row|]; simpl; [|done].
    destruct Hrow as (Htbl & Hid & _ & _ & Hfresh).
    rewrite Hid. by repeat split.
  - rewrite Hbad. simpl. rewrite upload_single_store. split; [lia|done].
Qed.

(** A run of requests appends the created rows, whose ids ascend from
    the sequence and differ from the ids already in the table. *)
Lemma post_forms_created e reqs srv :
  let run := post_forms e reqs srv in
  form_entries (store run.2) = form_entries (store srv) ++ run.1
  ∧ form_entries_id_seq (store srv) ≤ form_entries_id_seq (store run.2)
  ∧ Forall (λ r, form_entries_id_seq (store srv) ≤ FormEntry.id r) run.1
  ∧ StronglySorted (λ a b, FormEntry.id a < FormEntry.id b) run.1
  ∧ Forall (λ r, Forall (λ x, FormEntry.id x ≠ FormEntry.id r)
                   (form_entries (store srv))) run.1.
Proof.
  revert srv. induction reqs as [|rq reqs IH]; intros srv; simpl.
  { rewrite app_nil_r. repeat split; (done || constructor). }
  pose proof (post_form_step e (at_ms rq) (random rq) (at_now rq)
                (photo rq) (fields rq) srv) as [Hseq1 Hstep].
  destruct (post_form e _ _ _ _ _ srv) as [res srv1]. simpl in Hseq1, Hstep.
  specialize (IH srv1) as (Htbl & Hseq2 & Hlow & Hasc & Hfresh).
  destruct (post_forms e reqs srv1) as [created srv2].
  simpl in Htbl, Hseq2, Hlow, Hasc, Hfresh. simpl.
  destruct (Http.data res) as [row|].
  - destruct Hstep as (Htbl1 & Hid & Hseq & Hnew).
    rewrite Htbl, Htbl1, <- app_assoc. simpl.
    split; [done|]. split; [lia|]. split; [|split].
    + constructor; [lia|].
      eapply Forall_impl; [exact Hlow|]. simpl. intros; lia.
    + constructor; [done|].
      eapply Forall_impl; [exact Hlow|]. simpl. intros; lia.
    + constructor; [done|].
      eapply Forall_impl; [exact Hfresh|]. simpl. intros r Hr.
      rewrite Htbl1 in Hr. by apply Forall_app in Hr as [Hr _].
  - rewrite Htbl, Hstep. split; [done|]. split; [lia|]. split; [|split].
    + eapply Forall_impl; [exact Hlow|]. simpl. intros; lia.
    + done.
    + by rewrite Hstep in Hfresh.
Qed.

Lemma ascending_reverse (l : list FormEntry.t) :
  StronglySorted (λ a b, FormEntry.id a < FormEntry.id b) l →
  StronglySorted (id_desc FormEntry.id) (reverse l).
Proof.
  induction 1 as [|x l Hl IH Hx]; [constructor|].
  rewrite reverse_cons. apply StronglySorted_app_2; [|done|repeat constructor].
  intros a b Ha Hb. apply list_elem_of_singleton in Hb as ->.
  rewrite elem_of_reverse in Ha. rewrite Forall_forall in Hx.
  apply Hx in Ha. unfold id_desc. lia.
Qed.

Lemma ascending_id_inj (l : list FormEntry.t) a b :
  StronglySorted (λ a b, FormEntry.id a < FormEntry.id b) l →
  a ∈ l → b ∈ l → FormEntry.id a = FormEntry.id b → a = b.
Proof.
  induction 1 as [|x l Hl IH Hx]; intros Ha Hb Hid; [by inv Ha|].
  rewrite Forall_forall in Hx.
  apply elem_of_cons in Ha as [->|Ha]; apply elem_of_cons in Hb as [->|Hb].
  - done.
  - apply Hx in Hb. lia.
  - apply Hx in Ha. lia.
  - by apply IH.
Qed.

(** [C8] GET /api/form always answers 200 with every row of
    form_entries, ordered by descending id.  After any run of POST
    /api/form requests on any server, of which N succeed, the list has
    at least N rows, and the created rows appear in it in the reverse
    order of their creation: the row created last comes first among
    them. *)
Theorem get_form_newest_first e reqs srv :
  let created := (post_forms e reqs srv).1 in
  let srv' := (post_forms e reqs srv).2 in
  ∃ rows,
    get_form srv' = Http.Response 200 (Http.Rows rows)
    ∧ rows ≡ₚ form_entries (store srv')
    ∧ StronglySorted (λ a b, FormEntry.id b ≤ FormEntry.id a) rows
    ∧ (length created ≤ length rows)%nat
    ∧ filter (λ r, r ∈ created) rows = reverse created
    ∧ head (filter (λ r, r ∈ created) rows) = last created.
Proof.
  intros created srv'.
  pose proof (post_forms_created e reqs srv)
    as (Htbl & _ & _ & Hasc & Hfresh).
  fold created srv' in Htbl, Hasc, Hfresh.
  exists (order_by_id_desc FormEntry.id (form_entries (store srv'))).
  assert (order_by_id_desc FormEntry.id (form_entries (store srv'))
          ≡ₚ form_entries (store srv')) as Hperm
    by apply merge_sort_Permutation.
  assert (filter (λ r, r ∈ created)
            (order_by_id_desc FormEntry.id (form_entries (store srv')))
          = reverse created) as Hnewest.
  { apply (StronglySorted_unique_strong (id_desc FormEntry.id)).
    - intros a b Ha Hb Hab Hba.
      apply list_elem_of_filter in Ha as [Ha _].
      rewrite elem_of_reverse in Hb.
      apply (ascending_id_inj created); [done..|].
      unfold id_desc in *. lia.
    - apply StronglySorted_filter, StronglySorted_merge_sort; apply _.
    - by apply ascending_reverse.
    - rewrite Hperm, Htbl, filter_app, reverse_Permutation.
      rewrite (filter_all _ created) by done.
      assert (filter (λ r, r ∈ created) (form_entries (store srv)) = [])
        as ->; [|done].
      apply elem_of_nil_inv. intros x Hx.
      apply list_elem_of_filter in Hx as [Hc Hx].
      rewrite Forall_forall in Hfresh. apply Hfresh in Hc.
      rewrite Forall_forall in Hc. by apply Hc in Hx. }
  split; [reflexivity|]. split; [done|].
  split; [apply StronglySorted_merge_sort; apply _|].
  split; [|split; [done|]].
  - rewrite Hperm, Htbl, length_app. lia.
  - rewrite Hnewest. apply head_reverse.
Qed.

End FormList.

(** ** The to-do list *)

Section TodoList.

Lemma like_parse_literal (l : list ascii) :
  Forall (λ c, ¬ like_meta c) l →
  Pg.like_parse (l ++ ["%"%char])
  = Some ((Pg.LChar <$> l) ++ [Pg.LAny]).
Proof.
  induction 1 as [|c l Hc Hl IH]; [done|].
  change (Pg.like_parse ((c :: l) ++ ["%"%char])) with
    (if Ascii.eqb c "\"
     then match l ++ ["%"%char] with
          | [] => None
          | d :: p2 => cons (Pg.LChar d) <$> Pg.like_parse p2
          end
     else if Ascii.eqb c "%"
     then cons Pg.LAny <$> Pg.like_parse (l ++ ["%"%char])
     else if Ascii.eqb c "_"
     then cons Pg.LOne <$> Pg.like_parse (l ++ ["%"%char])
     else cons (Pg.LChar c) <$> Pg.like_parse (l ++ ["%"%char])).
  unfold like_meta in Hc.
  destruct (Ascii.eqb_spec c "\"); [tauto|].
  destruct (Ascii.eqb_spec c "%"); [tauto|].
  destruct (Ascii.eqb_spec c "_"); [tauto|].
  by rewrite IH.
Qed.

Lemma lower_char_meta c : like_meta (Pg.lower_char c) → like_meta c.
Proof.
  unfold like_meta.
  destruct c as [[] [] [] [] [] [] [] []]; vm_compute;
    intros [H|[H|H]]; try discriminate H; auto.
Qed.

Lemma like_match_any (p : list Pg.like_tok) (t : list ascii) :
  Pg.like_match (Pg.LAny :: p) t = true
  ↔ ∃ pre post, t = pre ++ post ∧ Pg.like_match p post = true.
Proof.
  induction t as [|d t IH].
  - simpl. rewrite orb_false_r. split.
    + intros Hm. by exists [], [].
    + intros (pre & post & Ht & Hm).
      symmetry in Ht. apply app_eq_nil in Ht as [-> ->]. done.
  - change (Pg.like_match (Pg.LAny :: p) (d :: t))
      with (Pg.like_match p (d :: t) || Pg.like_match (Pg.LAny :: p) t).
    rewrite orb_true_iff, IH. split.
    + intros [Hm|(pre & post & -> & Hm)].
      * by exists [], (d :: t).
      * by exists (d :: pre), post.
    + intros ([|x pre] & post & Ht & Hm); simplify_eq/=.
      * by left.
      * right. by exists pre, post.
Qed.

Lemma like_match_literal (s t : list ascii) :
  Pg.like_match ((Pg.LChar <$> s) ++ [Pg.LAny]) t = true ↔ s `prefix_of` t.
Proof.
  revert t. induction s as [|c s IH]; intros t.
  - split; [intros _; apply prefix_nil|intros _].
    apply (like_match_any []). exists t, []. by rewrite app_nil_r.
  - simpl.
    destruct t as [|d t]; [split; [done|by intros ?%prefix_nil_not]|].
    rewrite andb_true_iff, IH.
    destruct (Ascii.eqb_spec c d) as [->|Hne].
    + split; [intros [_ ?]; by apply prefix_cons|].
      intros ?%prefix_cons_inv_2. done.
    + split; [by intros [? _]|]. by intros ?%prefix_cons_inv_1.
Qed.

(** For a search text without pattern characters, the pattern matches
    exactly the titles that contain the text, letter case aside. *)
Lemma ilike_search_contains (title : string) (search : Js.value) :
  Forall (λ c, ¬ like_meta c) (list_ascii_of_string (Js.to_string search)) →
  Pg.ilike title (search_pattern search) = Some true
  ↔ contains_ci (Js.to_string search) title.
Proof.
  intros Hplain. unfold Pg.ilike, search_pattern, contains_ci.
  rewrite !list_ascii_of_string_app, lower_app.
  change (Pg.lower (list_ascii_of_string "%")) with ["%"%char].
  rewrite lower_app.
  change (Pg.lower (list_ascii_of_string "%")) with ["%"%char].
  change (Pg.like_parse (["%"%char] ++ ?l)) with
    (cons Pg.LAny <$> Pg.like_parse l).
  rewrite like_parse_literal.
  2:{ apply Forall_forall. intros c Hc Hmeta.
      apply list_elem_of_fmap in Hc as (c0 & -> & Hc0).
      rewrite Forall_forall in Hplain.
      by apply (Hplain c0 Hc0), lower_char_meta. }
  simpl. split.
  - intros [= Hm]. apply like_match_any in Hm as (pre & post & Ht & Hm).
    apply like_match_literal in Hm as [post' ->].
    by exists pre, post'.
  - intros (pre & post & Ht). f_equal.
    apply like_match_any. exists pre, (Pg.lower
      (list_ascii_of_string (Js.to_string search)) ++ post).
    split; [done|]. apply like_match_literal. by eexists.
Qed.

(** [X21] GET /api/todos for a search text without pattern characters:
    the answer is 200 with exactly the rows of the table that contain
    the text in their title when one is supplied, and whose completed
    flag is the one a recognized status names, ordered by descending
    id. *)
Lemma get_todos_plain_search q srv :
  Forall (λ c, ¬ like_meta c)
    (list_ascii_of_string (Js.to_string (TodoQuery.search q))) →
  ∃ rows,
    get_todos q srv = Http.Response 200 (Http.Rows rows)
    ∧ StronglySorted (λ a b, Todo.id b ≤ Todo.id a) rows
    ∧ ∀ x, x ∈ rows
           ↔ x ∈ todos (store srv)
             ∧ (Js.truthy (TodoQuery.search q) = true →
                contains_ci (Js.to_string (TodoQuery.search q))
                  (Todo.title x))
             ∧ (TodoQuery.status q = Js.Str "completed" →
                Todo.completed x = Some true)
             ∧ (TodoQuery.status q = Js.Str "pending" →
                Todo.completed x = Some false).
Proof.
  intros Hplain. eexists. split; [apply get_todos_rows|].
  split; [apply (StronglySorted_merge_sort (id_desc Todo.id)); apply _|].
  intros x. rewrite get_todos_elem_of. unfold listed.
  rewrite andb_true_iff.
  assert ((if Js.truthy (TodoQuery.search q)
           then bool_decide (Pg.ilike (Todo.title x)
                  (search_pattern (TodoQuery.search q)) = Some true)
           else true) = true
          ↔ (Js.truthy (TodoQuery.search q) = true →
             contains_ci (Js.to_string (TodoQuery.search q)) (Todo.title x)))
    as ->.
  { destruct (Js.truthy (TodoQuery.search q)); [|done].
    rewrite bool_decide_eq_true, ilike_search_contains by done. tauto. }
  assert ((if Js.strict_eq (TodoQuery.status q) (Js.Str "completed")
           then bool_decide (Todo.completed x = Some true)
           else if Js.strict_eq (TodoQuery.status q) (Js.Str "pending")
           then bool_decide (Todo.completed x = Some false)
           else true) = true
          ↔ (TodoQuery.status q = Js.Str "completed" →
             Todo.completed x = Some true)
            ∧ (TodoQuery.status q = Js.Str "pending" →
               Todo.completed x = Some false)) as ->; [|tauto].
  destruct (TodoQuery.status q) as [| | |st]; simpl; try (split; [split|]; done).
  destruct (String.eqb_spec st "completed") as [->|Hc].
  { rewrite bool_decide_eq_true. split; [by split|]. intros [Hd _]. auto. }
  destruct (String.eqb_spec st "pending") as [->|Hp].
  { rewrite bool_decide_eq_true. split; [by split|]. intros [_ Hd]. auto. }
  split; [|done]. intros _. split; intros [=]; congruence.
Qed.

End TodoList.

(** [C2] on a search text with a pattern character: GET
    /api/todos?search=_ returns the to-do titled "buy milk", whose title
    does not contain an underscore; the underscore reaches ILIKE
    unescaped and stands for any one character. *)
Lemma get_todos_wildcard :
  get_todos {| TodoQuery.search := Js.Str "_";
               TodoQuery.status := Js.Undefined |} one_todo
  = Http.Response 200 (Http.Rows [milk])
  ∧ ¬ contains_ci "_" (Todo.title milk).
Proof.
  split; [by vm_compute|].
  intros (pre & post & Hsplit).
  assert ("_"%char ∈ Pg.lower (list_ascii_of_string (Todo.title milk))) as Hin.
  { rewrite Hsplit. apply elem_of_app. right. by left. }
  revert Hin. apply (bool_decide_eq_false_1 _). by vm_compute.
Qed.

(** * Further properties of the handlers *)

(** ** The form resource *)

Section FormMore.

Lemma form_entries_fresh_id d :
  form_entries_ok d →
  forallb (λ r, negb (FormEntry.id r =? form_entries_id_seq d))
    (form_entries d) = true.
Proof.
  unfold form_entries_ok. intros Hseq. apply forallb_forall.
  intros r Hr. rewrite Forall_forall in Hseq.
  apply list_elem_of_In, Hseq in Hr.
  apply negb_true_iff, Z.eqb_neq. lia.
Qed.

(** [X1] A POST /api/form whose five required fields are non-empty and
    fit their columns (phone 20 characters, the others and building
    100), on a table whose ids lie below the sequence, answers 200 with
    the row it appends: the id is the next of the sequence, the fields
    are the submitted texts, building is the empty string when absent,
    created_at is the clock of the store. *)
Theorem post_form_created_row e now_ms rnd now file b srv :
  Js.truthy (FormBody.owner b) = true →
  Js.truthy (FormBody.shopname b) = true →
  Js.truthy (FormBody.businesstype b) = true →
  Js.truthy (FormBody.phone b) = true →
  Js.truthy (FormBody.location b) = true →
  (String.length (Js.to_string (FormBody.owner b)) ≤ 100)%nat →
  (String.length (Js.to_string (FormBody.shopname b)) ≤ 100)%nat →
  (String.length (Js.to_string (FormBody.businesstype b)) ≤ 100)%nat →
  (String.length (Js.to_string (FormBody.phone b)) ≤ 20)%nat →
  (String.length (Js.to_string (FormBody.location b)) ≤ 100)%nat →
  (String.length (building_of (FormBody.building b)) ≤ 100)%nat →
  form_entries_ok (store srv) →
  let row :=
    {| FormEntry.id := form_entries_id_seq (store srv);
       FormEntry.owner := Js.to_string (FormBody.owner b);
       FormEntry.shopname := Js.to_string (FormBody.shopname b);
       FormEntry.businesstype := Js.to_string (FormBody.businesstype b);
       FormEntry.phone := Js.to_string (FormBody.phone b);
       FormEntry.location := Js.to_string (FormBody.location b);
       FormEntry.building := Some (building_of (FormBody.building b));
       FormEntry.photo_url :=
         (λ f, Js.to_string (baseUrl e) +:+ "/uploads/"
               +:+ filename now_ms rnd f) <$> file;
       FormEntry.created_at := now |} in
  (post_form e now_ms rnd now file b srv).1
  = Http.Response 200 (Http.Success row)
  ∧ form_entries (store (post_form e now_ms rnd now file b srv).2)
    = form_entries (store srv) ++ [row]
  ∧ form_entries_id_seq (store (post_form e now_ms rnd now file b srv).2)
    = form_entries_id_seq (store srv) + 1.
Proof.
  intros H1 H2 H3 H4 H5 L1 L2 L3 L4 L5 L6 Hok row.
  rewrite post_form_valid by done. cbv zeta.
  unfold insert_form_entry. rewrite upload_single_store.
  rewrite (prepareValue_truthy _ H1), (prepareValue_truthy _ H2),
    (prepareValue_truthy _ H3), (prepareValue_truthy _ H4),
    (prepareValue_truthy _ H5).
  assert (Pg.prepareValue (Js.or (FormBody.building b) (Js.Str ""))
          = Some (building_of (FormBody.building b))) as ->.
  { unfold Js.or, building_of.
    destruct (Js.truthy (FormBody.building b)) eqn:Hb; [|done].
    by apply prepareValue_truthy. }
  unfold Pg.bind. cbn [Pg.not_null mbind option_bind].
  rewrite (varchar_fits _ _ L1), (varchar_fits _ _ L2), (varchar_fits _ _ L3),
    (varchar_fits _ _ L4), (varchar_fits _ _ L5), (varchar_fits _ _ L6).
  cbn [mbind option_bind fmap option_fmap option_map].
  rewrite (form_entries_fresh_id _ Hok). done.
Qed.

(** [X2] POST /api/form only ever appends: whatever the request, the
    todos table and its sequence are untouched, the rows of form_entries
    stay as they are and in place, and a row is added exactly when the
    answer is 200, the row of the answer, at the end.  The ids keep
    lying below the sequence. *)
Theorem post_form_only_appends e now_ms rnd now file b srv :
  let res := post_form e now_ms rnd now file b srv in
  todos (store res.2) = todos (store srv)
  ∧ todos_id_seq (store res.2) = todos_id_seq (store srv)
  ∧ match Http.data res.1 with
    | Some row =>
        Http.status res.1 = 200
        ∧ form_entries (store res.2) = form_entries (store srv) ++ [row]
    | None =>
        Http.status res.1 ≠ 200
        ∧ form_entries (store res.2) = form_entries (store srv)
    end
  ∧ (form_entries_ok (store srv) → form_entries_ok (store res.2)).
Proof.
  intros res. subst res.
  destruct (post_form_status e now_ms rnd now file b srv)
    as [[Hvalid _]|[_ Hbad]].
  - repeat (apply andb_true_iff in Hvalid as [Hvalid ?]).
    rewrite post_form_valid by done. simpl.
    destruct (insert_form_entry _ _ _ _ _ _ _ _ _) as [r d] eqn:Hins.
    apply insert_form_entry_inv in Hins as (Hseq & Ht & Hts & Hrow).
    rewrite upload_single_store in *. simpl.
    split; [done|]. split; [done|]. unfold form_entries_ok.
    destruct r as [row|]; simpl.
    + destruct Hrow as (Htbl & Hid & _ & _ & _).
      split; [done|]. intros Hok. rewrite Htbl, Hseq.
      apply Forall_app. split.
      * eapply Forall_impl; [exact Hok|]. simpl. intros; lia.
      * apply Forall_singleton. lia.
    + split; [done|]. intros Hok. rewrite Hrow, Hseq.
      eapply Forall_impl; [exact Hok|]. simpl. intros; lia.
  - rewrite Hbad. simpl. rewrite upload_single_store. done.
Qed.

(** [X3] The port never reaches a photo link: two environments with the
    same BASE_URL give the same answer and the same server, whatever
    their PORT.  The production address is a non-empty constant, so the
    local address behind it in the chain is never chosen. *)
Theorem post_form_ignores_port e e' now_ms rnd now file b srv :
  BASE_URL e = BASE_URL e' →
  post_form e now_ms rnd now file b srv
  = post_form e' now_ms rnd now file b srv.
Proof.
  intros Hbase. unfold post_form.
  assert (baseUrl e = baseUrl e') as ->; [|done].
  unfold baseUrl, Js.or. rewrite Hbase.
  by destruct (Js.truthy (Js.of_env (BASE_URL e'))).
Qed.

(** The earlier variant is the later one run with the base URL it
    computes as override. *)
Lemma legacy_as_override e now_ms rnd now file b srv :
  Legacy.post_form e now_ms rnd now file b srv
  = post_form {| BASE_URL := Some (Js.to_string (Legacy.baseUrl e));
                 PORT := PORT e |} now_ms rnd now file b srv.
Proof.
  unfold Legacy.post_form, post_form.
  assert (Js.to_string
            (baseUrl {| BASE_URL := Some (Js.to_string (Legacy.baseUrl e));
                        PORT := PORT e |})
          = Js.to_string (Legacy.baseUrl e)) as ->.
  { unfold baseUrl, Legacy.baseUrl, Js.or. simpl.
    destruct (BASE_URL e) as [base|]; simpl;
      [destruct (String.eqb_spec base "") as [->|Hne]; simpl|]; try done.
    by apply String.eqb_neq in Hne as ->. }
  destruct (upload_single now_ms rnd file srv) as [req_file srv1].
  destruct (Js.truthy (FormBody.owner b)),
    (Js.truthy (FormBody.shopname b)),
    (Js.truthy (FormBody.businesstype b)),
    (Js.truthy (FormBody.phone b)),
    (Js.truthy (FormBody.location b)); reflexivity.
Qed.

(** [X5] In the earlier variant a successful submission with a file
    links the photo under BASE_URL when it is set and not empty, and
    otherwise under the local address with the port of the environment,
    5000 when none is set: it never uses the production address. *)
Theorem legacy_photo_url e now_ms rnd now f b srv row srv' :
  Legacy.post_form e now_ms rnd now (Some f) b srv
  = (Http.Response 200 (Http.Success row), srv') →
  FormEntry.photo_url row
  = Some (default
            ("http://localhost:" +:+ default "5000" (first_non_empty [PORT e]))
            (first_non_empty [BASE_URL e])
          +:+ "/uploads/" +:+ filename now_ms rnd f).
Proof.
  rewrite legacy_as_override. intros Hpost.
  apply post_form_success in Hpost as [_ ->]. simpl. do 2 f_equal.
  unfold baseUrl, Legacy.baseUrl, Js.or. simpl.
  destruct (BASE_URL e) as [base|], (PORT e) as [port|]; simpl;
    try destruct (String.eqb_spec base "") as [->|Hb];
    try destruct (String.eqb_spec port "") as [->|Hp]; simpl; try done;
    try (apply String.eqb_neq in Hb; rewrite Hb); done.
Qed.

(** [X6] The file of any POST /api/form request is on disk afterwards,
    whatever the answer (200, 400 or 500): the static route serves its
    bytes under the generated name.  Every other name is served as
    before the request, and a request without a file leaves the uploads
    directory as it was. *)
Theorem post_form_uploads_frame e now_ms rnd now file b srv :
  (∀ f, file = Some f →
        get_uploads (filename now_ms rnd f)
          (post_form e now_ms rnd now file b srv).2
        = Http.File (content f))
  ∧ (∀ name,
       (∀ f, file = Some f → name ≠ filename now_ms rnd f) →
       get_uploads name (post_form e now_ms rnd now file b srv).2
       = get_uploads name srv)
  ∧ (file = None →
     uploads (post_form e now_ms rnd now file b srv).2 = uploads srv).
Proof.
  split; [|split].
  - intros f ->. unfold get_uploads. rewrite post_form_uploads. simpl.
    unfold filename at 1. rewrite !string_app_assoc, of_int_not_dotfile.
    by rewrite lookup_insert_eq.
  - intros name Hname. unfold get_uploads. rewrite post_form_uploads.
    destruct file as [f|]; simpl; [|done].
    rewrite lookup_insert_ne; [done|]. intros Heq. by apply (Hname f).
  - intros ->. by rewrite post_form_uploads.
Qed.

(** [X7] Two uploads that draw the same timestamp and the same random
    number and whose names have the same extension collide: the second
    file replaces the first, and the link the first submission was
    given serves the bytes of the second. *)
Theorem upload_collision e now_ms rnd now1 now2 f1 f2 b1 b2 srv :
  Path.extname (originalname f1) = Path.extname (originalname f2) →
  get_uploads (filename now_ms rnd f1)
    (post_form e now_ms rnd now2 (Some f2) b2
       (post_form e now_ms rnd now1 (Some f1) b1 srv).2).2
  = Http.File (content f2).
Proof.
  intros Hname.
  assert (filename now_ms rnd f1 = filename now_ms rnd f2) as ->
    by (unfold filename; by rewrite Hname).
  unfold get_uploads. rewrite post_form_uploads. simpl.
  unfold filename at 1. rewrite !string_app_assoc, of_int_not_dotfile.
  by rewrite lookup_insert_eq.
Qed.

End FormMore.

(** ** The generated file name *)

Section FilenameMore.

Lemma string_app_empty (a : string) : a +:+ "" = a.
Proof.
  induction a as [|x a IH]; [done|].
  change (String x (a +:+ "") = String x a). by rewrite IH.
Qed.

Lemma step_no_dot i c s :
  c ≠ "."%char → Path.startDot s = -1 →
  Path.startDot (Path.step i c s).1 = -1.
Proof.
  intros Hdot Hstart. unfold Path.step.
  apply Ascii.eqb_neq in Hdot. rewrite Hdot.
  destruct (Ascii.eqb c "/"), (Path.matchedSlash s), (Path.end_ s =? -1);
    simpl; rewrite ?Hstart; done.
Qed.

Lemma loop_no_dot l i s :
  Forall (λ c, c ≠ "."%char) l → Path.startDot s = -1 →
  Path.startDot (Path.loop l i s) = -1.
Proof.
  intros Hl. revert i s.
  induction Hl as [|c l Hc Hl IH]; intros i s Hstart; simpl; [done|].
  pose proof (step_no_dot i c s Hc Hstart) as Hstep.
  destruct (Path.step i c s) as [s' brk]. simpl in Hstep.
  destruct brk; [done|by apply IH].
Qed.

(** A name without a dot has no extension. *)
Lemma extname_no_dot (name : string) :
  Forall (λ c, c ≠ "."%char) (list_ascii_of_string name) →
  Path.extname name = "".
Proof.
  intros Hname. unfold Path.extname.
  rewrite loop_no_dot; [done| |done].
  apply Forall_forall. intros c Hc. rewrite Forall_forall in Hname.
  by apply Hname, list_elem_of_In, in_rev, list_elem_of_In.
Qed.

(** [X8] The name a file is stored under keeps the extension of the
    original name and nothing else of it: for a name made of a non-empty
    stem that does not end with a slash, a dot, and a non-empty extension
    without dot or slash, it is the timestamp, a hyphen, the random
    integer and that dot and extension; for a name without any dot it is
    the timestamp, a hyphen and the random integer alone. *)
Theorem filename_extension now_ms rnd f :
  (∀ stem e,
     originalname f = stem +:+ String "." e →
     stem ≠ "" → ¬ ends_with "/" stem →
     e ≠ "" → Forall plain (list_ascii_of_string e) →
     filename now_ms rnd f
     = Js.of_int now_ms +:+ "-" +:+ Js.of_int rnd +:+ String "." e)
  ∧ (Forall (λ c, c ≠ "."%char) (list_ascii_of_string (originalname f)) →
     filename now_ms rnd f = Js.of_int now_ms +:+ "-" +:+ Js.of_int rnd).
Proof.
  split.
  - intros stem e Hname Hstem Hslash He Hplain. unfold filename.
    rewrite Hname, extname_stem_ext by done.
    by rewrite !string_app_assoc.
  - intros Hname. unfold filename.
    by rewrite extname_no_dot, string_app_empty.
Qed.

End FilenameMore.

(** ** The to-do resource *)

Section TodosMore.
Context {pg : Pg.Input}.

Lemma filter_none {A} (P : A → Prop) `{!∀ x, Decision (P x)} (l : list A) :
  (∀ x, x ∈ l → ¬ P x) → filter P l = [].
Proof.
  induction l as [|x l IH]; intros HP; [done|].
  rewrite filter_cons_False by (apply HP; left).
  apply IH. intros y Hy. apply HP. by right.
Qed.



Lemma list_filter_iff_on {A} (P Q : A → Prop)
    `{!∀ x, Decision (P x), !∀ x, Decision (Q x)} (l : list A) :
  (∀ x, x ∈ l → (P x ↔ Q x)) → filter P l = filter Q l.
Proof.
  induction l as [|x l IH]; intros HPQ; [done|].
  rewrite !filter_cons, IH by (intros y Hy; apply HPQ; by right).
  destruct (HPQ x ltac:(left)) as [H1 H2].
  by repeat case_decide; try done; tauto.
Qed.

Lemma set_todos_same srv :
  set_store (set_todos (todos (store srv)) (todos_id_seq (store srv))
               (store srv)) srv = srv.
Proof. by destruct srv as [[] ?]. Qed.


Lemma search_pattern_lower s1 s2 :
  Pg.lower (list_ascii_of_string s1) = Pg.lower (list_ascii_of_string s2) →
  ∀ title,
    Pg.ilike title (search_pattern (Js.Str s1))
    = Pg.ilike title (search_pattern (Js.Str s2)).
Proof.
  intros Hlow title. unfold Pg.ilike, search_pattern. simpl.
  by rewrite !list_ascii_of_string_app, !lower_app, Hlow.
Qed.

(** [X10] The search ignores the letter case of the search text: two
    texts that differ only in the case of ASCII letters give the same
    answer. *)
Theorem get_todos_search_case s1 s2 status srv :
  Pg.lower (list_ascii_of_string s1) = Pg.lower (list_ascii_of_string s2) →
  get_todos {| TodoQuery.search := Js.Str s1; TodoQuery.status := status |} srv
  = get_todos {| TodoQuery.search := Js.Str s2; TodoQuery.status := status |}
      srv.
Proof.
  intros Hlow. rewrite !get_todos_rows. do 3 f_equal.
  apply list_filter_iff. intros r. unfold listed. simpl.
  rewrite (search_pattern_lower s1 s2 Hlow).
  assert (String.eqb s1 "" = String.eqb s2 "") as ->; [|done].
  destruct s1, s2; simpl in *; try done; discriminate.
Qed.


(** [X12] A supplied due_date that the store does not read as a
    timestamp makes POST /api/todos (with a title) and PUT /api/todos/:id
    answer 500, and so does on PUT a supplied completed that it does not
    read as a boolean; the server is left as it was, whatever the id. *)
Theorem todos_rejected_value id now b srv :
  (due_date_of (TodoBody.due_date b) = None →
   (Js.truthy (TodoBody.title b) = true →
    post_todos now b srv
    = (Http.Response 500 (Http.Error "Database insert failed"), srv))
   ∧ put_todos id b srv
     = (Http.Response 500 (Http.Error "Database update failed"), srv))
  ∧ (completed_of (TodoBody.completed b) = None →
     put_todos id b srv
     = (Http.Response 500 (Http.Error "Database update failed"), srv)).
Proof.
  split.
  - intros Hdue. split.
    + intros Ht. unfold post_todos, insert_todo. rewrite Ht. simpl.
      rewrite bind_due_date, Hdue. by rewrite set_store_same.
    + unfold put_todos, update_todo.
      rewrite bind_completed, bind_due_date, Hdue.
      destruct (completed_of _); simpl; by rewrite set_store_same.
  - intros Hc. unfold put_todos, update_todo.
    rewrite bind_completed, Hc. simpl. by rewrite set_store_same.
Qed.

(** [X13] POST /api/todos only ever appends: whatever the request, the
    form_entries table and the uploads are untouched, the rows of todos
    stay as they are and in place, and a row is added exactly when the
    answer is 200, the row of the answer, at the end. *)
Theorem post_todos_only_appends now b srv :
  let res := post_todos now b srv in
  form_entries (store res.2) = form_entries (store srv)
  ∧ uploads res.2 = uploads srv
  ∧ match Http.data res.1 with
    | Some row =>
        Http.status res.1 = 200
        ∧ todos (store res.2) = todos (store srv) ++ [row]
    | None =>
        Http.status res.1 ≠ 200 ∧ todos (store res.2) = todos (store srv)
    end.
Proof.
  intros res. subst res. unfold post_todos, insert_todo.
  destruct (Js.truthy (TodoBody.title b)); simpl; [|done].
  destruct (Pg.bind Pg.timestamp_in _) as [due|]; simpl; [|done].
  destruct (Pg.not_null _ ≫= Pg.varchar 255) as [title|]; simpl; [|done].
  by destruct (forallb _ _).
Qed.

End TodosMore.

(** ** Sequences of to-do requests *)

Section TodosFlow.
Context {pg : Pg.Input}.

(** What one request does to the sequence of todos. *)
Lemma serve_todo_seq rq srv :
  todos_id_seq (store srv) ≤ todos_id_seq (store (serve_todo rq srv).2)
  ∧ ∀ now b row,
      rq = PostTodo now b →
      Http.data (serve_todo rq srv).1 = Some row →
      Todo.id row = todos_id_seq (store srv)
      ∧ todos_id_seq (store (serve_todo rq srv).2)
        = todos_id_seq (store srv) + 1.
Proof.
  destruct rq as [now b|id b|id]; simpl.
  - unfold post_todos, insert_todo.
    destruct (Js.truthy (TodoBody.title b)); simpl;
      [|split; [lia|by intros]].
    destruct (Pg.bind Pg.timestamp_in _) as [due|]; simpl;
      [|split; [lia|by intros]].
    destruct (Pg.not_null _ ≫= Pg.varchar 255) as [title|]; simpl;
      [|split; [lia|by intros]].
    destruct (forallb _ _); simpl; (split; [lia|]); [|by intros].
    intros now' b' row _ [= <-]. done.
  - split; [|by intros]. unfold put_todos, update_todo.
    destruct (_ ≫= _) as [[tbl [|row ret]]|]; simpl; lia.
  - split; [|by intros]. unfold delete_todos, delete_todo.
    destruct (Pg.bind Pg.int4_in _) as [n|]; simpl; [|lia].
    destruct (filter _ _) as [|row ret]; simpl; lia.
Qed.

Lemma run_todos_ascending reqs srv :
  todos_id_seq (store srv) ≤ todos_id_seq (store (run_todos reqs srv).2)
  ∧ Forall (λ r, todos_id_seq (store srv) ≤ Todo.id r) (run_todos reqs srv).1
  ∧ StronglySorted (λ a b, Todo.id a < Todo.id b) (run_todos reqs srv).1.
Proof.
  revert srv. induction reqs as [|rq reqs IH]; intros srv; simpl.
  { split; [lia|]. split; constructor. }
  pose proof (serve_todo_seq rq srv) as [Hseq1 Hpost].
  destruct (serve_todo rq srv) as [res srv1]. simpl in Hseq1, Hpost.
  specialize (IH srv1) as (Hseq2 & Hlow & Hasc).
  destruct (run_todos reqs srv1) as [created srv2].
  simpl in Hseq2, Hlow, Hasc. simpl.
  assert (Forall (λ r, todos_id_seq (store srv) ≤ Todo.id r) created) as Hlow'
    by (eapply Forall_impl; [exact Hlow|]; simpl; intros; lia).
  split; [lia|].
  destruct rq as [now b|id b|id]; [|done..].
  destruct (Http.data res) as [row|]; [|done].
  destruct (Hpost now b row eq_refl eq_refl) as [Hid Hnext].
  split; constructor; try done; [lia|].
  eapply Forall_impl; [exact Hlow|]. simpl. intros; lia.
Qed.

(** [X14] Identifiers are never reused.  In any sequence of POST, PUT
    and DELETE requests on the to-do resource, from any server, the rows
    the successful POSTs create get strictly ascending ids, none below
    the sequence at the start: an id is given once, also after its row
    was deleted. *)
Theorem todos_ids_never_reused reqs srv :
  StronglySorted (λ a b, Todo.id a < Todo.id b) (run_todos reqs srv).1
  ∧ NoDup (Todo.id <$> (run_todos reqs srv).1)
  ∧ Forall (λ r, todos_id_seq (store srv) ≤ Todo.id r) (run_todos reqs srv).1.
Proof.
  destruct (run_todos_ascending reqs srv) as (_ & Hlow & Hasc).
  split; [done|]. split; [|done].
  induction Hasc as [|x l Hl IH Hx]; [constructor|].
  apply Forall_cons in Hlow as [_ Hlow].
  rewrite fmap_cons. apply NoDup_cons. split; [|by apply IH].
  intros Hin. apply list_elem_of_fmap in Hin as (y & Hy & Hin).
  rewrite Forall_forall in Hx. apply Hx in Hin. lia.
Qed.

(** [X15] DELETE /api/todos/:id twice with an integer id: whatever the
    first answer, the second is 404 and changes nothing. *)
Theorem delete_todos_twice id n srv :
  Pg.int4_in id = Some n →
  delete_todos id (delete_todos id srv).2
  = (Http.Response 404 (Http.Error "To-Do not found"),
     (delete_todos id srv).2).
Proof.
  intros Hid.
  assert (∀ r, r ∈ todos (store (delete_todos id srv).2) → Todo.id r ≠ n)
    as Hgone.
  { unfold delete_todos.
    change (Pg.prepareValue (Js.Str id)) with (Some id).
    rewrite (delete_todo_integer _ _ _ Hid).
    intros r Hr.
    assert (r ∈ filter (λ r1, id_is (Some n) r1 ≠ true) (todos (store srv)))
      as Hin by (by destruct (filter (λ r0, id_is (Some n) r0 = true) _)).
    apply list_elem_of_filter in Hin as [Hin _].
    by rewrite id_is_true in Hin. }
  revert Hgone. generalize (delete_todos id srv).2. intros srv1 Hgone.
  unfold delete_todos.
  change (Pg.prepareValue (Js.Str id)) with (Some id).
  rewrite (delete_todo_integer _ _ _ Hid).
  rewrite filter_none by (intros x Hx; rewrite id_is_true; by apply Hgone).
  rewrite filter_all by (intros x Hx; rewrite id_is_true; by apply Hgone).
  by rewrite set_todos_same.
Qed.




End TodosFlow.

(** ** Writing and then listing to-dos *)

Section TodosLists.
Context {pg : Pg.Input}.

Lemma post_todos_accepted now b srv due :
  Js.truthy (TodoBody.title b) = true →
  (String.length (Js.to_string (TodoBody.title b)) ≤ 255)%nat →
  due_date_of (TodoBody.due_date b) = Some due →
  todos_ok (store srv) →
  post_todos now b srv
  = (Http.Response 200
       (Http.Success
          (Todo.Row (todos_id_seq (store srv))
             (Js.to_string (TodoBody.title b))
             (Some (if Js.truthy (TodoBody.description b)
                    then Js.to_string (TodoBody.description b) else ""))
             (Some false) due now)),
     set_store
       (set_todos
          (todos (store srv)
           ++ [Todo.Row (todos_id_seq (store srv))
                 (Js.to_string (TodoBody.title b))
                 (Some (if Js.truthy (TodoBody.description b)
                        then Js.to_string (TodoBody.description b) else ""))
                 (Some false) due now])
          (todos_id_seq (store srv) + 1) (store srv)) srv).
Proof.
  intros Ht Hlen Hdue [Hseq _].
  unfold post_todos, insert_todo. rewrite Ht. simpl.
  rewrite bind_due_date, Hdue.
  rewrite (prepareValue_truthy _ Ht). simpl.
  rewrite (varchar_fits _ _ Hlen). simpl.
  rewrite (todos_fresh_id _ Hseq).
  by rewrite prepare_or_empty.
Qed.

(** A row above all the others comes first in the list. *)
Lemma order_by_id_desc_newest (rows : list Todo.t) (row : Todo.t) :
  NoDup (Todo.id <$> rows) →
  Forall (λ r, Todo.id r < Todo.id row) rows →
  order_by_id_desc Todo.id (rows ++ [row])
  = row :: order_by_id_desc Todo.id rows.
Proof.
  intros Hnd Hlow. unfold order_by_id_desc.
  rewrite Forall_forall in Hlow.
  apply (StronglySorted_unique_strong (id_desc Todo.id)).
  - intros x1 x2 Hx1 Hx2 H12 H21. unfold id_desc in *.
    rewrite merge_sort_Permutation in Hx1.
    apply elem_of_app in Hx1 as [Hx1|Hx1];
      apply elem_of_cons in Hx2 as [->|Hx2].
    + apply Hlow in Hx1. lia.
    + rewrite merge_sort_Permutation in Hx2.
      apply (primary_key_unique rows); [done..|lia].
    + by apply list_elem_of_singleton in Hx1.
    + rewrite merge_sort_Permutation in Hx2.
      apply list_elem_of_singleton in Hx1 as ->. apply Hlow in Hx2. lia.
  - apply StronglySorted_merge_sort; apply _.
  - constructor; [apply StronglySorted_merge_sort; apply _|].
    apply Forall_forall. intros x Hx.
    rewrite merge_sort_Permutation in Hx. apply Hlow in Hx.
    unfold id_desc. lia.
  - rewrite !merge_sort_Permutation. by rewrite Permutation_app_comm.
Qed.

(** [X17] Create and then list.  After an accepted POST /api/todos on
    a table that obeys its schema, a list without search shows the new
    row first, before the rows it showed before; unless the list asks
    for the completed to-dos, which it shows as before: a new to-do is
    pending. *)
Theorem post_todos_then_list now b srv due q :
  Js.truthy (TodoBody.title b) = true →
  (String.length (Js.to_string (TodoBody.title b)) ≤ 255)%nat →
  due_date_of (TodoBody.due_date b) = Some due →
  todos_ok (store srv) →
  Js.truthy (TodoQuery.search q) = false →
  ∃ row rows,
    (post_todos now b srv).1 = Http.Response 200 (Http.Success row)
    ∧ get_todos q srv = Http.Response 200 (Http.Rows rows)
    ∧ get_todos q (post_todos now b srv).2
      = Http.Response 200
          (Http.Rows
             (if Js.strict_eq (TodoQuery.status q) (Js.Str "completed")
              then rows else row :: rows)).
Proof.
  intros Ht Hlen Hdue Hok Hq.
  rewrite (post_todos_accepted now b srv due) by done.
  destruct Hok as (Hseq & Hnd & _).
  eexists _, _. split; [reflexivity|]. split; [apply get_todos_rows|].
  rewrite get_todos_rows. simpl. rewrite filter_app. do 2 f_equal.
  set (row := Todo.Row _ _ _ _ _ _).
  assert (listed q row
          = negb (Js.strict_eq (TodoQuery.status q) (Js.Str "completed")))
    as Hrow.
  { unfold listed. rewrite Hq. simpl.
    destruct (Js.strict_eq (TodoQuery.status q) (Js.Str "completed"));
      [done|].
    by destruct (Js.strict_eq (TodoQuery.status q) (Js.Str "pending")). }
  destruct (Js.strict_eq (TodoQuery.status q) (Js.Str "completed")).
  - rewrite (filter_none _ [row]); [by rewrite app_nil_r|].
    intros x ->%list_elem_of_singleton. by rewrite Hrow.
  - rewrite (filter_all _ [row])
      by (intros x ->%list_elem_of_singleton; by rewrite Hrow).
    apply order_by_id_desc_newest.
    + apply (sublist_NoDup _ (Todo.id <$> todos (store srv))); [done|].
      apply fmap_sublist, sublist_filter.
    + apply Forall_filter_keep. exact Hseq.
Qed.

(** [X18] Update and then list.  After PUT /api/todos/:id with only
    completed: true on an existing row, in a table that obeys its
    schema, the list of completed to-dos holds the updated row and the
    list of pending to-dos holds no row of that id. *)
Theorem put_completed_then_list id srv r :
  Pg.int4_in id = Some (Todo.id r) →
  todos_ok (store srv) →
  r ∈ todos (store srv) →
  let b := {| TodoBody.title := Js.Undefined;
              TodoBody.description := Js.Undefined;
              TodoBody.completed := Js.Bool true;
              TodoBody.due_date := Js.Undefined |} in
  ∃ done pending,
    get_todos (by_status "completed") (put_todos id b srv).2
    = Http.Response 200 (Http.Rows done)
    ∧ get_todos (by_status "pending") (put_todos id b srv).2
      = Http.Response 200 (Http.Rows pending)
    ∧ Todo.Row (Todo.id r) (Todo.title r) (Todo.description r) (Some true)
        (Todo.due_date r) (Todo.created_at r) ∈ done
    ∧ ∀ x, x ∈ pending → Todo.id x ≠ Todo.id r.
Proof.
  intros Hid (_ & Hnd & Hlen) Hr b.
  rewrite Forall_forall in Hlen.
  rewrite (put_todos_row id b srv r (Some true) None); try done; auto.
  2:{ unfold completed_of. simpl. by rewrite Pg.bool_in_true. }
  eexists _, _. split; [apply get_todos_rows|].
  split; [apply get_todos_rows|].
  change (put_row b (Some true) None r)
    with (Todo.Row (Todo.id r) (Todo.title r) (Todo.description r)
            (Some true) (Todo.due_date r) (Todo.created_at r)).
  set (r' := Todo.Row _ _ _ _ _ _).
  split.
  - apply get_todos_elem_of. split; [done|]. simpl.
    apply list_elem_of_fmap. exists r. by rewrite Z.eqb_refl.
  - intros x Hx. apply get_todos_elem_of in Hx as [Hlisted Hx].
    simpl in Hx. apply list_elem_of_fmap in Hx as (y & -> & Hy).
    destruct (Z.eqb_spec (Todo.id y) (Todo.id r)) as [Heq|Hne]; [|done].
    by vm_compute in Hlisted.
Qed.

Lemma update_rows_Forall (P : Todo.t → Prop) hit set rows tbl ret :
  (∀ r r', P r → set r = Some r' → P r') →
  Forall P rows →
  update_rows hit set rows = Some (tbl, ret) → Forall P tbl.
Proof.
  intros Hset Hrows. revert tbl ret.
  induction Hrows as [|r rows Hr Hrows IH]; intros tbl ret Hupd.
  { by simplify_eq/=. }
  simpl in Hupd. destruct (hit r).
  - destruct (set r) as [r'|] eqn:Hr'; [|done]. simpl in Hupd.
    destruct (update_rows hit set rows) as [[tbl' ret']|]; [|done].
    simplify_eq/=. constructor; eauto.
  - destruct (update_rows hit set rows) as [[tbl' ret']|]; [|done].
    simplify_eq/=. constructor; eauto.
Qed.

(** [X19] The completed flag is never NULL in a table the handlers
    wrote: a new to-do takes the default false, an update keeps the old
    flag where none is supplied, and a delete removes rows.  So each
    to-do handler keeps a table without NULL flags in that state, and
    the table of a new server is one. *)
Theorem completed_set_invariant :
  completed_set (store empty_server)
  ∧ (∀ now b srv,
       completed_set (store srv) →
       completed_set (store (post_todos now b srv).2))
  ∧ (∀ id b srv,
       completed_set (store srv) →
       completed_set (store (put_todos id b srv).2))
  ∧ (∀ id srv,
       completed_set (store srv) →
       completed_set (store (delete_todos id srv).2)).
Proof.
  unfold completed_set. split; [constructor|]. split; [|split].
  - intros now b srv Hset. unfold post_todos, insert_todo.
    destruct (Js.truthy (TodoBody.title b)); simpl; [|done].
    destruct (Pg.bind Pg.timestamp_in _) as [due|]; simpl; [|done].
    destruct (Pg.not_null _ ≫= Pg.varchar 255) as [title|]; simpl; [|done].
    destruct (forallb _ _); simpl; [|done].
    apply Forall_app. split; [done|]. by apply Forall_singleton.
  - intros id b srv Hset. unfold put_todos, update_todo.
    destruct (_ ≫= _) as [[tbl ret]|] eqn:Hupd; [|done].
    assert (Forall (λ r, Todo.completed r ≠ None) tbl) as Htbl.
    { destruct (Pg.bind Pg.bool_in _) as [c|]; [|done].
      destruct (Pg.bind Pg.timestamp_in _) as [dd|]; [|done].
      destruct (Pg.bind Pg.int4_in _) as [n|]; [|done].
      simpl in Hupd.
      eapply update_rows_Forall; [|exact Hset|exact Hupd].
      intros r r' Hr Hr'. unfold set_todo in Hr'.
      destruct (Pg.not_null _ ≫= Pg.varchar 255); simplify_eq/=.
      by destruct c. }
    by destruct ret.
  - intros id srv Hset. unfold delete_todos, delete_todo.
    destruct (Pg.bind Pg.int4_in _) as [n|]; simpl; [|done].
    destruct (filter (λ r, id_is n r = true) _); simpl;
      by apply Forall_filter_keep.
Qed.

(** [X20] In a table without NULL flags, the list of completed to-dos
    and the list of pending to-dos share no row and together hold
    every row of the table. *)
Theorem status_lists_partition srv :
  completed_set (store srv) →
  ∃ done pending,
    get_todos (by_status "completed") srv = Http.Response 200 (Http.Rows done)
    ∧ get_todos (by_status "pending") srv
      = Http.Response 200 (Http.Rows pending)
    ∧ (∀ x, x ∈ todos (store srv) ↔ x ∈ done ∨ x ∈ pending)
    ∧ (∀ x, x ∈ done → x ∈ pending → False)
    ∧ done ++ pending ≡ₚ todos (store srv).
Proof.
  intros Hset. unfold completed_set in Hset. rewrite Forall_forall in Hset.
  eexists _, _. split; [apply get_todos_rows|].
  split; [apply get_todos_rows|].
  assert (∀ x, listed (by_status "completed") x
               = bool_decide (Todo.completed x = Some true)) as Hdone by done.
  assert (∀ x, listed (by_status "pending") x
               = bool_decide (Todo.completed x = Some false)) as Hpend by done.
  split; [|split].
  - intros x. rewrite !get_todos_elem_of, Hdone, Hpend.
    rewrite !bool_decide_eq_true. split; [|tauto].
    intros Hx. specialize (Hset x Hx).
    destruct (Todo.completed x) as [[]|]; [left|right|]; done.
  - intros x. rewrite !get_todos_elem_of, Hdone, Hpend.
    rewrite !bool_decide_eq_true. intros [-> _] [? _]. done.
  - unfold order_by_id_desc. rewrite !merge_sort_Permutation.
    rewrite <- (filter_app_complement
                  (λ r, listed (by_status "completed") r = true)
                  (todos (store srv))) at 3.
    f_equiv. apply (reflexive_eq _ _). apply list_filter_iff_on.
    intros x Hx. rewrite Hdone, Hpend, !bool_decide_eq_true.
    specialize (Hset x Hx). destruct (Todo.completed x) as [[]|]; naive_solver.
Qed.

End TodosLists.

(** ** The further properties at sample requests *)

Lemma post_form_created_row_witness :
  (post_form no_env 1700000000000 123456789 5 (Some shop_photo) shop
     empty_server).1
  = Http.Response 200
      (Http.Success
         (shop_row
            (Some "https://vendroo-server.onrender.com/uploads/1700000000000-123456789.png")))
  ∧ form_entries
      (store (post_form no_env 1700000000000 123456789 5 (Some shop_photo)
                shop empty_server).2)
    = form_entries (store empty_server)
      ++ [shop_row
            (Some "https://vendroo-server.onrender.com/uploads/1700000000000-123456789.png")]
  ∧ form_entries_id_seq
      (store (post_form no_env 1700000000000 123456789 5 (Some shop_photo)
                shop empty_server).2)
    = form_entries_id_seq (store empty_server) + 1.
Proof.
  apply (post_form_created_row no_env 1700000000000 123456789 5
           (Some shop_photo) shop empty_server);
    try reflexivity; try (simpl; lia).
  constructor.
Defined.

Lemma post_form_ignores_port_witness :
  post_form no_env 1700000000000 123456789 5 (Some shop_photo) shop
    empty_server
  = post_form port_8080 1700000000000 123456789 5 (Some shop_photo) shop
      empty_server.
Proof. apply post_form_ignores_port. reflexivity. Defined.

Lemma legacy_post_form_witness :
  Legacy.post_form port_8080 1700000000000 123456789 5 None shop empty_server
  = post_form port_8080 1700000000000 123456789 5 None shop empty_server.
Proof. apply legacy_post_form. left. reflexivity. Defined.

Lemma legacy_photo_url_witness :
  FormEntry.photo_url
    (shop_row
       (Some "http://localhost:8080/uploads/1700000000000-123456789.png"))
  = Some (default
            ("http://localhost:"
             +:+ default "5000" (first_non_empty [PORT port_8080]))
            (first_non_empty [BASE_URL port_8080])
          +:+ "/uploads/" +:+ filename 1700000000000 123456789 shop_photo).
Proof.
  apply (legacy_photo_url port_8080 1700000000000 123456789 5 shop_photo shop
           empty_server _
           (Legacy.post_form port_8080 1700000000000 123456789 5
              (Some shop_photo) shop empty_server).2).
  by vm_compute.
Defined.

Lemma post_form_uploads_frame_witness :
  get_uploads (filename 1700000000000 123456789 shop_photo)
    (post_form no_env 1700000000000 123456789 5 (Some shop_photo) no_phone
       empty_server).2
  = Http.File (content shop_photo)
  ∧ get_uploads "1600000000000-1.png"
      (post_form no_env 1700000000000 123456789 5 (Some shop_photo) no_phone
         empty_server).2
    = get_uploads "1600000000000-1.png" empty_server.
Proof.
  split.
  - apply (proj1 (post_form_uploads_frame no_env 1700000000000 123456789 5
                    (Some shop_photo) no_phone empty_server)).
    reflexivity.
  - apply (proj1 (proj2 (post_form_uploads_frame no_env 1700000000000
                           123456789 5 (Some shop_photo) no_phone
                           empty_server))).
    intros f [= <-]. by vm_compute.
Defined.

Lemma upload_collision_witness :
  get_uploads (filename 1700000000000 123456789 shop_photo)
    (post_form no_env 1700000000000 123456789 6 (Some front_photo) shop
       (post_form no_env 1700000000000 123456789 5 (Some shop_photo) shop
          empty_server).2).2
  = Http.File (content front_photo).
Proof. apply upload_collision. reflexivity. Defined.

Lemma filename_extension_witness :
  filename 1700000000000 123456789 shop_photo
  = Js.of_int 1700000000000 +:+ "-" +:+ Js.of_int 123456789 +:+ ".png"
  ∧ filename 1700000000000 123456789 receipt
    = Js.of_int 1700000000000 +:+ "-" +:+ Js.of_int 123456789.
Proof.
  split.
  - apply (proj1 (filename_extension 1700000000000 123456789 shop_photo)
             "shop" "png").
    + reflexivity.
    + done.
    + unfold ends_with. apply (bool_decide_eq_false_1 _). by vm_compute.
    + done.
    + repeat constructor; done.
  - apply (proj2 (filename_extension 1700000000000 123456789 receipt)).
    repeat constructor; done.
Defined.

Lemma get_todos_plain_search_witness :
  ∃ rows,
    get_todos {| TodoQuery.search := Js.Str "MILK";
                 TodoQuery.status := Js.Str "pending" |} one_todo
    = Http.Response 200 (Http.Rows rows)
    ∧ StronglySorted (λ a b, Todo.id b ≤ Todo.id a) rows
    ∧ ∀ x, x ∈ rows
           ↔ x ∈ todos (store one_todo)
             ∧ (Js.truthy (Js.Str "MILK") = true →
                contains_ci (Js.to_string (Js.Str "MILK")) (Todo.title x))
             ∧ (Js.Str "pending" = Js.Str "completed" →
                Todo.completed x = Some true)
             ∧ (Js.Str "pending" = Js.Str "pending" →
                Todo.completed x = Some false).
Proof.
  apply (get_todos_plain_search
           {| TodoQuery.search := Js.Str "MILK";
              TodoQuery.status := Js.Str "pending" |} one_todo).
  repeat constructor; intros [H|[H|H]]; discriminate H.
Defined.

Lemma get_todos_search_case_witness :
  get_todos {| TodoQuery.search := Js.Str "MILK";
               TodoQuery.status := Js.Undefined |} one_todo
  = get_todos {| TodoQuery.search := Js.Str "milk";
                 TodoQuery.status := Js.Undefined |} one_todo.
Proof. apply get_todos_search_case. reflexivity. Defined.


Lemma todos_rejected_value_witness :
  (post_todos (pg:=PgText.input) 7 bad_due_date one_todo
   = (Http.Response 500 (Http.Error "Database insert failed"), one_todo)
   ∧ put_todos (pg:=PgText.input) "1" bad_due_date one_todo
     = (Http.Response 500 (Http.Error "Database update failed"), one_todo))
  ∧ put_todos (pg:=PgText.input) "1" bad_due_date one_todo
    = (Http.Response 500 (Http.Error "Database update failed"), one_todo).
Proof.
  split.
  - destruct (proj1 (todos_rejected_value (pg:=PgText.input) "1" 7
                       bad_due_date one_todo) eq_refl) as [Hpost Hput].
    split; [by apply Hpost|exact Hput].
  - apply (proj2 (todos_rejected_value (pg:=PgText.input) "1" 7
                    bad_due_date one_todo)).
    reflexivity.
Defined.

Lemma delete_todos_twice_witness :
  delete_todos (pg:=PgText.input) "1"
    (delete_todos (pg:=PgText.input) "1" one_todo).2
  = (Http.Response 404 (Http.Error "To-Do not found"),
     (delete_todos (pg:=PgText.input) "1" one_todo).2).
Proof. apply (delete_todos_twice (pg:=PgText.input) "1" 1). reflexivity. Defined.


Lemma post_todos_then_list_witness :
  ∃ row rows,
    (post_todos (pg:=PgText.input) 7 (todo_body (Js.Str "feed the cat"))
       one_todo).1
    = Http.Response 200 (Http.Success row)
    ∧ get_todos (by_status "pending") one_todo
      = Http.Response 200 (Http.Rows rows)
    ∧ get_todos (by_status "pending")
        (post_todos (pg:=PgText.input) 7 (todo_body (Js.Str "feed the cat"))
           one_todo).2
      = Http.Response 200
          (Http.Rows
             (if Js.strict_eq (TodoQuery.status (by_status "pending"))
                   (Js.Str "completed")
              then rows else row :: rows)).
Proof.
  apply (post_todos_then_list (pg:=PgText.input) 7
           (todo_body (Js.Str "feed the cat")) one_todo None
           (by_status "pending")).
  - reflexivity.
  - simpl. lia.
  - reflexivity.
  - exact one_todo_ok.
  - reflexivity.
Defined.

Lemma put_completed_then_list_witness :
  ∃ done pending,
    get_todos (by_status "completed")
      (put_todos (pg:=PgText.input) "1" completed_only one_todo).2
    = Http.Response 200 (Http.Rows done)
    ∧ get_todos (by_status "pending")
        (put_todos (pg:=PgText.input) "1" completed_only one_todo).2
      = Http.Response 200 (Http.Rows pending)
    ∧ Todo.Row 1 "buy milk" (Some "") (Some true) None 0 ∈ done
    ∧ ∀ x, x ∈ pending → Todo.id x ≠ Todo.id milk.
Proof.
  apply (put_completed_then_list (pg:=PgText.input) "1" one_todo milk).
  - reflexivity.
  - exact one_todo_ok.
  - by left.
Defined.

Lemma status_lists_partition_witness :
  ∃ done pending,
    get_todos (by_status "completed") one_todo
    = Http.Response 200 (Http.Rows done)
    ∧ get_todos (by_status "pending") one_todo
      = Http.Response 200 (Http.Rows pending)
    ∧ (∀ x, x ∈ todos (store one_todo) ↔ x ∈ done ∨ x ∈ pending)
    ∧ (∀ x, x ∈ done → x ∈ pending → False)
    ∧ done ++ pending ≡ₚ todos (store one_todo).
Proof.
  apply (status_lists_partition one_todo).
  by repeat constructor.
Defined.

(** ** Column bounds and the independence of the two resources *)

Section Bounds.
Context {pg : Pg.Input}.

Lemma varchar_too_long n s : too_long n s → Pg.varchar n s = None.
Proof.
  intros [Hlen (c & Hc & Hspace)]. unfold Pg.varchar.
  destruct (Nat.leb_spec (String.length s) n); [lia|].
  destruct (forallb _ _) eqn:Hall; [|done].
  rewrite forallb_forall in Hall.
  apply list_elem_of_In, Hall, Ascii.eqb_eq in Hc. by subst.
Qed.

Lemma post_form_rejected_row e now_ms rnd now file b srv :
  Js.truthy (FormBody.owner b) = true →
  Js.truthy (FormBody.shopname b) = true →
  Js.truthy (FormBody.businesstype b) = true →
  Js.truthy (FormBody.phone b) = true →
  Js.truthy (FormBody.location b) = true →
  too_long 100 (Js.to_string (FormBody.owner b))
  ∨ too_long 100 (Js.to_string (FormBody.shopname b))
  ∨ too_long 100 (Js.to_string (FormBody.businesstype b))
  ∨ too_long 20 (Js.to_string (FormBody.phone b))
  ∨ too_long 100 (Js.to_string (FormBody.location b))
  ∨ too_long 100 (building_of (FormBody.building b)) →
  post_form e now_ms rnd now file b srv
  = (Http.Response 500 (Http.Error "Database insert failed"),
     set_store
       (set_form_entries (form_entries (store srv))
          (form_entries_id_seq (store srv) + 1) (store srv))
       (upload_single now_ms rnd file srv).2).
Proof.
  intros H1 H2 H3 H4 H5 Hlong.
  rewrite post_form_valid by done. cbv zeta.
  unfold insert_form_entry. rewrite upload_single_store.
  rewrite (prepareValue_truthy _ H1), (prepareValue_truthy _ H2),
    (prepareValue_truthy _ H3), (prepareValue_truthy _ H4),
    (prepareValue_truthy _ H5).
  assert (Pg.prepareValue (Js.or (FormBody.building b) (Js.Str ""))
          = Some (building_of (FormBody.building b))) as ->.
  { unfold Js.or, building_of.
    destruct (Js.truthy (FormBody.building b)) eqn:Hb; [|done].
    by apply prepareValue_truthy. }
  unfold Pg.bind. cbn [Pg.not_null mbind option_bind].
  destruct Hlong as [H|[H|[H|[H|[H|H]]]]];
    apply varchar_too_long in H; rewrite H;
    repeat (destruct (Pg.varchar _ _); cbn [mbind option_bind fmap
              option_fmap option_map]; try done).
Qed.

(** [X23] A POST /api/form that passes validation but carries a text
    too long for its column (more than 20 characters for phone, more
    than 100 for the others, the excess not being spaces) answers 500
    and persists no row. *)
Theorem post_form_too_long e now_ms rnd now file b srv :
  Js.truthy (FormBody.owner b) = true →
  Js.truthy (FormBody.shopname b) = true →
  Js.truthy (FormBody.businesstype b) = true →
  Js.truthy (FormBody.phone b) = true →
  Js.truthy (FormBody.location b) = true →
  too_long 100 (Js.to_string (FormBody.owner b))
  ∨ too_long 100 (Js.to_string (FormBody.shopname b))
  ∨ too_long 100 (Js.to_string (FormBody.businesstype b))
  ∨ too_long 20 (Js.to_string (FormBody.phone b))
  ∨ too_long 100 (Js.to_string (FormBody.location b))
  ∨ too_long 100 (building_of (FormBody.building b)) →
  (post_form e now_ms rnd now file b srv).1
  = Http.Response 500 (Http.Error "Database insert failed")
  ∧ form_entries (store (post_form e now_ms rnd now file b srv).2)
    = form_entries (store srv).
Proof.
  intros H1 H2 H3 H4 H5 Hlong.
  by rewrite post_form_rejected_row.
Qed.

(** [X24] The two resources are independent on the to-do side: no
    POST, PUT or DELETE of the to-do resource, whatever its answer,
    touches the form entries, their sequence or the uploaded files. *)
Theorem todos_leave_forms rq srv :
  form_entries (store (serve_todo rq srv).2) = form_entries (store srv)
  ∧ form_entries_id_seq (store (serve_todo rq srv).2)
    = form_entries_id_seq (store srv)
  ∧ uploads (serve_todo rq srv).2 = uploads srv.
Proof.
  destruct rq as [now b|id b|id]; simpl.
  - unfold post_todos, insert_todo.
    destruct (Js.truthy (TodoBody.title b)); simpl; [|done].
    destruct (Pg.bind Pg.timestamp_in _) as [due|]; simpl; [|done].
    destruct (Pg.not_null _ ≫= Pg.varchar 255) as [title|]; simpl; [|done].
    by destruct (forallb _ _).
  - unfold put_todos, update_todo.
    by destruct (_ ≫= _) as [[tbl [|row ret]]|].
  - unfold delete_todos, delete_todo.
    destruct (Pg.bind Pg.int4_in _) as [n|]; simpl; [|done].
    by destruct (filter _ _) as [|row ret].
Qed.

End Bounds.

Lemma post_form_too_long_witness :
  (post_form no_env 1700000000000 123456789 5 (Some shop_photo) long_phone
     empty_server).1
  = Http.Response 500 (Http.Error "Database insert failed")
  ∧ form_entries
      (store (post_form no_env 1700000000000 123456789 5 (Some shop_photo)
                long_phone empty_server).2)
    = form_entries (store empty_server).
Proof.
  apply post_form_too_long; try reflexivity.
  do 3 right. left. split; [simpl; lia|].
  exists "6"%char. split; [|done]. simpl. by left.
Defined.
